(** * googlemaps/common.py: credentials, URL signing and the retrying GET

    A shallow embedding of [googlemaps/common.py] and the properties of it
    that its specification states.

    Conventions of the embedding.
    - The language and its standard library behave as in Python 3 (the
      source tries the Python 3 import of [urlencode] first).
    - A Python [str] is represented by the sequence of its UTF-8 bytes, a
      value of type [string]; [s.encode('utf-8')] is then the list of the
      characters' codes.
    - A Python [int] is a [Z].  A [datetime] is a [Z] counting microseconds,
      and so is a [timedelta].  A Python [float] of seconds (the argument of
      [time.sleep], the result of [random.random]) is an exact rational [Q].
    - An optional argument or attribute that holds a [str] or [None] is an
      [option string], one that holds an [int] or [None] an [option Z]; the
      truth value of such an object is Python's ([None], the empty string
      and [0] are false).
    - A function that may raise returns a [result]; a function that mutates
      an object it was handed returns the object's new value next to its
      result. *)

From Stdlib Require Import ZArith QArith Qpower Lqa List String Ascii Bool Lia.
Import ListNotations.

Local Open Scope string_scope.
Local Open Scope Z_scope.

(** ** Python values seen through the operations the module applies *)

(** A value found in a [params] dict, in a decoded JSON body, or given to
    [ApiError]: the module only compares such a value with a string, tests
    it against [None], and formats it with [str()] or [%s].  [POther shown]
    is any object that is neither [None] nor a [str], and [shown] is what
    [str()] prints for it. *)
Inductive pyval : Type :=
| PNone
| PStr (s : string)
| POther (shown : string).

Definition pyval_eqb (a b : pyval) : bool :=
  match a, b with
  | PNone, PNone => true
  | PStr s, PStr t => String.eqb s t
  | POther s, POther t => String.eqb s t
  | _, _ => false
  end.

(** [v == "literal"]. *)
Definition eq_str (v : pyval) (lit : string) : bool := pyval_eqb v (PStr lit).

(** [v is None]. *)
Definition is_None (v : pyval) : bool :=
  match v with PNone => true | _ => false end.

(** [str(v)], also what [%s] prints. *)
Definition py_str (v : pyval) : string :=
  match v with
  | PNone => "None"
  | PStr s => s
  | POther shown => shown
  end.

(** Truth value of an object. *)
Class Truthy (A : Type) := truthy : A -> bool.

#[global] Instance Truthy_str : Truthy (option string) :=
  fun o => match o with Some s => negb (String.eqb s "") | None => false end.

#[global] Instance Truthy_int : Truthy (option Z) :=
  fun o => match o with Some z => negb (Z.eqb z 0) | None => false end.

(** The object held by an optional string attribute. *)
Definition pyval_of (o : option string) : pyval :=
  match o with Some s => PStr s | None => PNone end.

(** ** Dictionaries

    A [dict] keeps its entries in insertion order; assigning to a key that
    is present replaces the value in place, assigning to a new key appends
    an entry. *)
Definition dict : Type := list (string * pyval).

Fixpoint dict_get (k : string) (d : dict) : option pyval :=
  match d with
  | [] => None
  | (k', v) :: d' => if String.eqb k k' then Some v else dict_get k d'
  end.

Definition dict_mem (k : string) (d : dict) : bool :=
  match dict_get k d with Some _ => true | None => false end.

Fixpoint dict_set (k : string) (v : pyval) (d : dict) : dict :=
  match d with
  | [] => [(k, v)]
  | (k', v') :: d' =>
      if String.eqb k k' then (k', v) :: d' else (k', v') :: dict_set k v d'
  end.

(** ** Exceptions and results *)

(** [ApiError]: "Represents an exception returned by the remote API." *)
Record ApiError : Type := mkApiError {
  status : pyval;
  message : pyval
}.

(** [ApiError.__init__(self, status, message=None)]. *)
Definition ApiError__init__ (status_ : pyval) (message_ : option pyval) : ApiError :=
  {| status := status_;
     message := match message_ with Some m => m | None => PNone end |}.

(** [ApiError.__str__]. *)
Definition ApiError__str__ (self : ApiError) : pyval :=
  if is_None (message self) then status self
  else PStr (py_str (status self) ++ " (" ++ py_str (message self) ++ ")").

Inductive exn : Type :=
| ValueError (msg : string)
| NotImplementedError (msg : string)
| TypeError
| IndexError
| KeyError (k : string)
| BinasciiError                      (* binascii.Error *)
| JSONDecodeError                    (* raised by resp.json() *)
| ConnectionError                    (* raised by requests.get *)
| HTTPError (status_code : Z)        (* requests.exceptions.HTTPError *)
| RaisedApiError (e : ApiError).

Inductive result (A : Type) : Type :=
| Ok (a : A)
| Raise (e : exn).

Arguments Ok {A} a.
Arguments Raise {A} e.

Definition bind {A B : Type} (r : result A) (k : A -> result B) : result B :=
  match r with
  | Ok a => k a
  | Raise e => Raise e
  end.

Declare Scope result_scope.
Delimit Scope result_scope with result.
Notation "x <- c ;; k" := (bind c (fun x => k))
  (at level 100, c at next level, right associativity) : result_scope.

(** ** Strings *)

(** [s.split(sep)] for a separator of one character. *)
Fixpoint split (sep : ascii) (s : string) : list string :=
  match s with
  | EmptyString => [""]
  | String c s' =>
      if Ascii.eqb c sep then "" :: split sep s'
      else match split sep s' with
           | [] => [String c ""]
           | w :: ws => String c w :: ws
           end
  end.

(** [l[i]]. *)
Definition index {A : Type} (l : list A) (i : nat) : result A :=
  match nth_error l i with
  | Some a => Ok a
  | None => Raise IndexError
  end.

(** [s < n] for a [str] [s] and an [int] [n]: the two types are not ordered. *)
Definition str_lt_int (s : string) (n : Z) : result bool := Raise TypeError.

(** [s == n] for a [str] [s] and an [int] [n]: never equal. *)
Definition str_eq_int (s : string) (n : Z) : bool := false.

(** ** Context *)

(** The value of [Context.timeout]: the single [timeout] argument, or the
    tuple [(connect_timeout, read_timeout)]. *)
Inductive timeout_setting : Type :=
| Single (t : option Z)
| Tuple (connect read : option Z).

(** "Holds state between requests, such as credentials (API key), timeout
    settings." *)
Record Context : Type := mkContext {
  key : option string;
  timeout : timeout_setting;
  client_id : option string;
  client_secret : option string;
  retry_timeout : Z
}.

(** [timedelta(seconds=n)]. *)
Definition timedelta_seconds (n : Z) : Z := n * 1000000.

(** [key.startswith(prefix)]. *)
Definition startswith (s : option string) (p : string) : bool :=
  match s with Some s => String.prefix p s | None => false end.

(** [Context.__init__]; [requests_version] is [requests.__version__]. *)
Definition Context__init__ (requests_version : string)
    (key_ client_id_ client_secret_ : option string)
    (timeout_ connect_timeout read_timeout : option Z)
    (retry_timeout_ : Z) : result Context :=
  if negb (truthy key_) && negb (truthy client_secret_ && truthy client_id_) then
    Raise (ValueError
      "Must provide API key or enterprise credentials with context object.")
  else if truthy key_ && negb (startswith key_ "AIza") then
    Raise (ValueError "Invalid API key provided.")
  else if truthy timeout_ && (truthy connect_timeout || truthy read_timeout) then
    Raise (ValueError
      "Specify either timeout, or connect_timeout and read_timeout")
  else
    (self_timeout <-
       (if truthy connect_timeout && truthy read_timeout then
          let chunks := split "." requests_version in
          (c0 <- index chunks 0 ;;
           old_major <- str_lt_int c0 2 ;;
           too_old <-
             (if old_major : bool then Ok true
              else
                c0' <- index chunks 0 ;;
                if str_eq_int c0' 2 then
                  c1 <- index chunks 1 ;; str_lt_int c1 4
                else Ok false) ;;
           if too_old : bool then
             Raise (NotImplementedError
               "Connect/Read timeouts require requests v2.4.0 or higher")
           else Ok (Tuple connect_timeout read_timeout))
        else Ok (Single timeout_)) ;;
     Ok {| key := key_;
           timeout := self_timeout;
           client_id := client_id_;
           client_secret := client_secret_;
           retry_timeout := timedelta_seconds retry_timeout_ |})%result.

(** ** The standard library functions the module calls

    [urllib.parse.urlencode], [base64.urlsafe_b64decode],
    [base64.urlsafe_b64encode] and [hmac.new(key, msg, hashlib.sha1)],
    written out so that signed URLs can be computed. *)

Definition bytes : Type := list Z.

Definition ord (c : ascii) : Z := Z.of_N (N_of_ascii c).
Definition chr (n : Z) : ascii := ascii_of_N (Z.to_N n).

(** [s.encode('utf-8')]. *)
Definition encode_utf8 (s : string) : bytes := map ord (list_ascii_of_string s).

(** [b.decode('utf-8')]. *)
Definition decode_utf8 (b : bytes) : string := string_of_list_ascii (map chr b).

Module urllib.

Definition in_range (lo hi : ascii) (c : ascii) : bool :=
  (ord lo <=? ord c) && (ord c <=? ord hi).

(** The characters [quote] never escapes: letters, digits and [_.-~]. *)
Definition always_safe (c : ascii) : bool :=
  in_range "A" "Z" c || in_range "a" "z" c || in_range "0" "9" c
  || Ascii.eqb c "_" || Ascii.eqb c "." || Ascii.eqb c "-" || Ascii.eqb c "~".

Definition hex_digit (n : Z) : ascii :=
  match String.get (Z.to_nat n) "0123456789ABCDEF" with
  | Some c => c
  | None => "0"%char
  end.

Definition quote_char (c : ascii) : string :=
  if always_safe c then String c ""
  else if Ascii.eqb c " " then "+"
  else String "%" (String (hex_digit (ord c / 16))
                           (String (hex_digit (ord c mod 16)) "")).

(** [quote_plus(s)]. *)
Fixpoint quote_plus (s : string) : string :=
  match s with
  | EmptyString => ""
  | String c s' => quote_char c ++ quote_plus s'
  end.

(** [urlencode(query)] for a [dict]: the entries in the dict's order. *)
Definition urlencode (query : dict) : string :=
  String.concat "&"
    (map (fun kv => quote_plus (fst kv) ++ "=" ++ quote_plus (py_str (snd kv)))
         query).

End urllib.

Module base64.

Definition alphabet : string :=
  "ABCDEFGHIJKLMNOPQRSTUVWXYZabcdefghijklmnopqrstuvwxyz0123456789-_".

Definition digit (n : Z) : ascii :=
  match String.get (Z.to_nat n) alphabet with
  | Some c => c
  | None => "="%char
  end.

Fixpoint encode (b : bytes) : list ascii :=
  match b with
  | [] => []
  | [x] =>
      [digit (Z.shiftr x 2); digit (Z.shiftl (Z.land x 3) 4); "="; "="]%char
  | [x; y] =>
      [digit (Z.shiftr x 2);
       digit (Z.lor (Z.shiftl (Z.land x 3) 4) (Z.shiftr y 4));
       digit (Z.shiftl (Z.land y 15) 2); "="]%char
  | x :: y :: z :: b' =>
      digit (Z.shiftr x 2)
      :: digit (Z.lor (Z.shiftl (Z.land x 3) 4) (Z.shiftr y 4))
      :: digit (Z.lor (Z.shiftl (Z.land y 15) 2) (Z.shiftr z 6))
      :: digit (Z.land z 63)
      :: encode b'
  end.

(** [urlsafe_b64encode(b)], as the bytes of its ASCII text. *)
Definition urlsafe_b64encode (b : bytes) : bytes := map ord (encode b).

(** The translation [urlsafe_b64decode] applies first. *)
Definition translate (c : ascii) : ascii :=
  if Ascii.eqb c "-" then "+"%char
  else if Ascii.eqb c "_" then "/"%char
  else c.

(** The value of a character of the standard alphabet. *)
Definition value (c : ascii) : option Z :=
  if urllib.in_range "A" "Z" c then Some (ord c - 65)
  else if urllib.in_range "a" "z" c then Some (ord c - 97 + 26)
  else if urllib.in_range "0" "9" c then Some (ord c - 48 + 52)
  else if Ascii.eqb c "+" then Some 62
  else if Ascii.eqb c "/" then Some 63
  else None.

(** [binascii.a2b_base64] as [b64decode] calls it: characters outside the
    alphabet are skipped, a complete padding ends the data, and data that
    stops inside a group of four raises [binascii.Error]. *)
Fixpoint a2b_base64 (cs : list ascii) (quad_pos : Z) (leftchar : Z)
    (pads : Z) (out : bytes) : result bytes :=
  match cs with
  | [] => if quad_pos =? 0 then Ok out else Raise BinasciiError
  | c :: cs' =>
      if Ascii.eqb c "=" then
        if 2 <=? quad_pos then
          if 4 <=? quad_pos + (pads + 1) then Ok out
          else a2b_base64 cs' quad_pos leftchar (pads + 1) out
        else a2b_base64 cs' quad_pos leftchar pads out
      else
        match value c with
        | None => a2b_base64 cs' quad_pos leftchar pads out
        | Some v =>
            if quad_pos =? 0 then a2b_base64 cs' 1 v 0 out
            else if quad_pos =? 1 then
              a2b_base64 cs' 2 (Z.land v 15) 0
                (out ++ [Z.lor (Z.shiftl leftchar 2) (Z.shiftr v 4)])%list
            else if quad_pos =? 2 then
              a2b_base64 cs' 3 (Z.land v 3) 0
                (out ++ [Z.lor (Z.shiftl leftchar 4) (Z.shiftr v 2)])%list
            else
              a2b_base64 cs' 0 0 0
                (out ++ [Z.lor (Z.shiftl leftchar 6) v])%list
        end
  end.

(** [urlsafe_b64decode(s)] for a [str] [s]. *)
Definition urlsafe_b64decode (s : string) : result bytes :=
  let cs := list_ascii_of_string s in
  if forallb (fun c => ord c <? 128) cs then
    a2b_base64 (map translate cs) 0 0 0 []
  else Raise (ValueError "string argument should contain only ASCII characters").

End base64.

Module hashlib.

Definition w32 (x : Z) : Z := x mod 4294967296.

Definition rotl (n x : Z) : Z :=
  w32 (Z.lor (Z.shiftl x n) (Z.shiftr x (32 - n))).

Definition be32 (x : Z) : bytes :=
  [Z.shiftr x 24 mod 256; Z.shiftr x 16 mod 256; Z.shiftr x 8 mod 256; x mod 256].

Definition be64 (x : Z) : bytes := (be32 (Z.shiftr x 32) ++ be32 (x mod 4294967296))%list.

(** The message followed by SHA-1's padding. *)
Definition pad (m : bytes) : bytes :=
  let n := Z.of_nat (List.length m) in
  (m ++ [128] ++ repeat 0 (Z.to_nat ((55 - n) mod 64)) ++ be64 (8 * n))%list.

Fixpoint words (b : bytes) : list Z :=
  match b with
  | x :: y :: z :: t :: b' =>
      (Z.shiftl x 24 + Z.shiftl y 16 + Z.shiftl z 8 + t) :: words b'
  | _ => []
  end.

(** The message schedule, latest word first. *)
Fixpoint schedule (n : nat) (ws : list Z) : list Z :=
  match n with
  | O => ws
  | S n' =>
      let w :=
        rotl 1 (Z.lxor (Z.lxor (nth 2 ws 0) (nth 7 ws 0))
                       (Z.lxor (nth 13 ws 0) (nth 15 ws 0))) in
      schedule n' (w :: ws)
  end.

Definition state : Type := (Z * Z * Z * Z * Z)%type.

Definition round (i : Z) (w : Z) (h : state) : state :=
  let '(a, b, c, d, e) := h in
  let '(f, k) :=
    if i <? 20 then
      (Z.lor (Z.land b c) (Z.land (Z.lxor b 4294967295) d), 1518500249)
    else if i <? 40 then (Z.lxor (Z.lxor b c) d, 1859775393)
    else if i <? 60 then
      (Z.lor (Z.lor (Z.land b c) (Z.land b d)) (Z.land c d), 2400959708)
    else (Z.lxor (Z.lxor b c) d, 3395469782) in
  (w32 (rotl 5 a + f + e + k + w), a, rotl 30 b, c, d).

Fixpoint rounds (i : Z) (ws : list Z) (h : state) : state :=
  match ws with
  | [] => h
  | w :: ws' => rounds (i + 1) ws' (round i w h)
  end.

Definition compress (h : state) (block : bytes) : state :=
  let ws := rev (schedule 64 (rev (words block))) in
  let '(a, b, c, d, e) := h in
  let '(a', b', c', d', e') := rounds 0 ws h in
  (w32 (a + a'), w32 (b + b'), w32 (c + c'), w32 (d + d'), w32 (e + e')).

Fixpoint blocks (n : nat) (b : bytes) (h : state) : state :=
  match n with
  | O => h
  | S n' =>
      match b with
      | [] => h
      | _ => blocks n' (skipn 64 b) (compress h (firstn 64 b))
      end
  end.

(** [hashlib.sha1(m).digest()]. *)
Definition sha1 (m : bytes) : bytes :=
  let p := pad m in
  let '(a, b, c, d, e) :=
    blocks (List.length p) p
      (1732584193, 4023233417, 2562383102, 271733878, 3285377520) in
  (be32 a ++ be32 b ++ be32 c ++ be32 d ++ be32 e)%list.

End hashlib.

Module hmac.

(** [hmac.new(key, msg, hashlib.sha1).digest()]. *)
Definition digest_sha1 (key_ : bytes) (msg : bytes) : bytes :=
  let k := if 64 <? Z.of_nat (List.length key_) then hashlib.sha1 key_ else key_ in
  let k := (k ++ repeat 0 (64 - List.length k)%nat)%list in
  let inner := hashlib.sha1 (map (Z.lxor 54) k ++ msg)%list in
  hashlib.sha1 (map (Z.lxor 92) k ++ inner)%list.

End hmac.

(** ** Signing *)

(** [_hmac_sign(secret, s)]: "Returns a basee64-encoded HMAC-SHA1 signature
    of a given string."  ([urlsafe_b64decode] rejects [None] with a
    [TypeError].) *)
Definition _hmac_sign (secret : option string) (s : string) : result string :=
  let s := encode_utf8 s in
  (k <- match secret with
        | Some secret => base64.urlsafe_b64decode secret
        | None => Raise TypeError
        end ;;
   let sig := hmac.digest_sha1 k s in
   let out := base64.urlsafe_b64encode sig in
   Ok (decode_utf8 out))%result.

(** [Context._auth_url(self, path, params)]: "Returns the path and query
    string portion of the request URL, first adding any necessary
    parameters."  The result comes with the two objects the method was
    handed, [self] and [params], as the method leaves them; a call that falls
    off the end of the method returns [None]. *)
Definition _auth_url (self : Context) (path : string) (params : dict)
    : Context * dict * result (option string) :=
  if truthy (key self) then
    let params := dict_set "key" (pyval_of (key self)) params in
    (self, params, Ok (Some (path ++ "?" ++ urllib.urlencode params)))
  else if truthy (client_id self) && truthy (client_secret self) then
    let params := dict_set "client" (pyval_of (client_id self)) params in
    let path := path ++ "?" ++ urllib.urlencode params in
    (self, params,
     (sig <- _hmac_sign (client_secret self) path ;;
      Ok (Some (path ++ "&signature=" ++ sig)))%result)
  else (self, params, Ok None).

(** ** The outside world of a request *)

Definition _VERSION : string := "0.1".
Definition _USER_AGENT : string := "GoogleGeoApiClientPython/" ++ _VERSION.

(** The arguments of [requests.get]. *)
Record Request : Type := mkRequest {
  req_url : string;
  req_user_agent : string;
  req_timeout : timeout_setting;
  req_verify : bool
}.

(** What [resp.json()] finds in the body of a response. *)
Inductive content : Type :=
| NotJSON
| JSONObject (d : dict)
| JSONOther.            (* a JSON array, string, number, boolean or null *)

Record Response : Type := mkResponse {
  status_code : Z;
  body_content : content
}.

(** A decoded JSON document: a [dict], or an object that is no [dict]. *)
Inductive decoded : Type :=
| Dict (d : dict)
| NonDict.

(** [resp.json()]. *)
Definition json (resp : Response) : result decoded :=
  match body_content resp with
  | NotJSON => Raise JSONDecodeError
  | JSONObject d => Ok (Dict d)
  | JSONOther => Ok NonDict
  end.

(** [body[k]] for a string [k]. *)
Definition subscript (body : decoded) (k : string) : result pyval :=
  match body with
  | Dict d => match dict_get k d with Some v => Ok v | None => Raise (KeyError k) end
  | NonDict => Raise TypeError
  end.

(** [k in body] for a string [k]. *)
Definition contains (body : decoded) (k : string) : result bool :=
  match body with
  | Dict d => Ok (dict_mem k d)
  | NonDict => Raise TypeError
  end.

(** [resp.raise_for_status()]: requests raises [HTTPError] for the client
    and server error classes, and returns for every other status. *)
Definition raise_for_status (resp : Response) : result unit :=
  if (400 <=? status_code resp) && (status_code resp <? 600)
  then Raise (HTTPError (status_code resp))
  else Ok tt.

(** What the environment answers: the [k]-th reading of the clock, the
    [k]-th random draw, and the outcome of the [k]-th HTTP request. *)
Record World : Type := mkWorld {
  datetime_now : nat -> Z;
  random_random : nat -> Q;
  requests_get : nat -> Request -> result Response
}.

(** The objects [_get] was handed and the trace of its effects. *)
Record State : Type := mkState {
  ctx : Context;
  params : dict;
  clock_reads : nat;
  draws : nat;
  slept : list Q;          (* arguments of time.sleep, latest first *)
  sent : list Request      (* requests issued, latest first *)
}.

Definition M (A : Type) : Type := State -> State * result A.

Definition ret {A : Type} (a : A) : M A := fun s => (s, Ok a).

Definition lift {A : Type} (r : result A) : M A := fun s => (s, r).

Definition bindM {A B : Type} (m : M A) (k : A -> M B) : M B :=
  fun s =>
    match m s with
    | (s', Ok a) => k a s'
    | (s', Raise e) => (s', Raise e)
    end.

Declare Scope io_scope.
Delimit Scope io_scope with io.
Notation "x <- c ;; k" := (bindM c (fun x => k))
  (at level 100, c at next level, right associativity) : io_scope.

(** [delay_seconds = 0.5 * 1.5 ** (retry_counter - 1)]. *)
Definition delay_seconds (retry_counter : Z) : Q :=
  ((1 # 2) * (3 # 2) ^ (retry_counter - 1))%Q.

(** How a run of the body of [_get] ends when it does not raise: it
    returns the body of the response, or it returns what a call of [_get]
    itself on these arguments returns. *)
Inductive action : Type :=
| Return (body : decoded)
| Recurse (first_request_time : Z) (retry_counter : Z).

(** The end of the body of [_get], from the test of the status code on:
    what becomes of the response.  Nothing here has an effect on the
    objects or on the world: the block returns, raises, or calls [_get]. *)
Definition classify (resp : Response) (exceeded_timeout : bool)
    (first_request_time : Z) (retry_counter : Z) : result action :=
  (if existsb (Z.eqb (status_code resp)) [500; 503; 504]
      && negb exceeded_timeout
   then Ok (Recurse first_request_time (retry_counter + 1))
   else
     _ <- (if negb (status_code resp =? 200)
           then raise_for_status resp else Ok tt) ;;
     body <- json resp ;;
     st <- subscript body "status" ;;
     if eq_str st "OK" || eq_str st "ZERO_RESULTS" then Ok (Return body)
     else if eq_str st "OVER_QUERY_LIMIT" && negb exceeded_timeout
     then Ok (Recurse first_request_time (retry_counter + 1))
     else
       has_message <- contains body "error_message" ;;
       if has_message : bool then
         msg <- subscript body "error_message" ;;
         Raise (RaisedApiError (ApiError__init__ st (Some msg)))
       else
         Raise (RaisedApiError (ApiError__init__ st None)))%result.

Section Effects.

Variable w : World.

(** [datetime.now()]. *)
Definition now : M Z :=
  fun s =>
    (mkState (ctx s) (params s) (S (clock_reads s)) (draws s) (slept s) (sent s),
     Ok (datetime_now w (clock_reads s))).

(** [random.random()]. *)
Definition random : M Q :=
  fun s =>
    (mkState (ctx s) (params s) (clock_reads s) (S (draws s)) (slept s) (sent s),
     Ok (random_random w (draws s))).

(** [time.sleep(seconds)]. *)
Definition sleep (seconds : Q) : M unit :=
  fun s =>
    (mkState (ctx s) (params s) (clock_reads s) (draws s) (seconds :: slept s) (sent s),
     Ok tt).

(** [requests.get(url, headers={"User-Agent": ua}, timeout=t, verify=v)]. *)
Definition get (req : Request) : M Response :=
  fun s =>
    (mkState (ctx s) (params s) (clock_reads s) (draws s) (slept s) (req :: sent s),
     requests_get w (List.length (sent s)) req).

(** [ctx._auth_url(url, params)] on the two objects of the state. *)
Definition auth_url (url : string) : M (option string) :=
  fun s =>
    let '(self, params', r) := _auth_url (ctx s) url (params s) in
    (mkState self params' (clock_reads s) (draws s) (slept s) (sent s), r).

(** [ctx.timeout] and [ctx.retry_timeout]. *)
Definition ctx_timeout : M timeout_setting := fun s => (s, Ok (timeout (ctx s))).
Definition ctx_retry_timeout : M Z := fun s => (s, Ok (retry_timeout (ctx s))).

(** The body of [_get(ctx, url, params, first_request_time, retry_counter)]:
    "Performs HTTP GET request with credentials, returning the body as
    JSON."  [ctx] and [params] are the objects of the state; a [datetime]
    is always true, so [not first_request_time] tests for [None]. *)
Definition attempt (url : string) (first_request_time : option Z)
    (retry_counter : Z) : M action :=
  (first_request_time <-
     match first_request_time with
     | None => now
     | Some t => ret t
     end ;;
   _ <- (if 0 <? retry_counter then
           r <- random ;;
           sleep (delay_seconds retry_counter * (r + (1 # 2)))%Q
         else ret tt) ;;
   signed <- auth_url url ;;
   full_url <- lift match signed with
                    | Some p => Ok ("https://maps.googleapis.com" ++ p)
                    | None => Raise TypeError
                    end ;;
   t <- ctx_timeout ;;
   resp <- get (mkRequest full_url _USER_AGENT t true) ;;
   finished <- now ;;
   budget <- ctx_retry_timeout ;;
   let exceeded_timeout := budget <? finished - first_request_time in
   lift (classify resp exceeded_timeout first_request_time retry_counter))%io.

(** [_get]: every call of [_get] inside its body is a tail call
    [return _get(ctx, url, params, first_request_time, retry_counter + 1)],
    so a run of the body that ends in [Recurse] continues as the run of
    [_get] on those arguments.  [fuel] bounds the depth of the recursion;
    [None] stands for a run that needs more. *)
Fixpoint _get (fuel : nat) (url : string) (first_request_time : option Z)
    (retry_counter : Z) (s : State) : State * option (result decoded) :=
  match fuel with
  | O => (s, None)
  | S fuel' =>
      match attempt url first_request_time retry_counter s with
      | (s', Ok (Return body)) => (s', Some (Ok body))
      | (s', Ok (Recurse t c)) => _get fuel' url (Some t) c s'
      | (s', Raise e) => (s', Some (Raise e))
      end
  end.

End Effects.

(** * Notions used in the statements *)

(** The two credential modes of a Context, as [_auth_url] tests them:
    [if self.key] and [if self.client_id and self.client_secret]. *)
Definition api_key_mode (c : Context) : bool := truthy (key c).
Definition enterprise_mode (c : Context) : bool :=
  truthy (client_id c) && truthy (client_secret c).

(** The credentials are acceptable: a key with the prefix, or no key and
    the enterprise pair. *)
Definition credentials_ok (key_ client_id_ client_secret_ : option string) : bool :=
  if truthy key_ then startswith key_ "AIza"
  else truthy client_secret_ && truthy client_id_.

(** The signature as the specification words it: HMAC-SHA1 with the decoded
    secret as key over the UTF-8 bytes of the path with its query string,
    base64url-encoded. *)
Definition reference_signature (secret_key : bytes) (signedPath : string) : string :=
  decode_utf8
    (base64.urlsafe_b64encode
       (hmac.digest_sha1 secret_key (encode_utf8 signedPath))).

(** What the locals of the body hold: [first_request_time], the reading of
    the clock after the response, and [exceeded_timeout]. *)
Definition first_time (w : World) (s : State) (first_request_time : option Z) : Z :=
  match first_request_time with
  | Some t => t
  | None => datetime_now w (clock_reads s)
  end.

Definition finish_time (w : World) (s : State) (first_request_time : option Z) : Z :=
  match first_request_time with
  | Some _ => datetime_now w (clock_reads s)
  | None => datetime_now w (S (clock_reads s))
  end.

Definition exceeded_timeout (w : World) (s : State) (first_request_time : option Z) : bool :=
  retry_timeout (ctx s) <? finish_time w s first_request_time - first_time w s first_request_time.

(** The request a run started in state [s] issues, when signing gives a
    path. *)
Definition request_of (s : State) (url : string) : option Request :=
  match snd (_auth_url (ctx s) url (params s)) with
  | Ok (Some p) =>
      Some (mkRequest ("https://maps.googleapis.com" ++ p) _USER_AGENT
              (timeout (ctx s)) true)
  | _ => None
  end.

(** The run started in state [s] gets the response [resp] to its request. *)
Definition answered (w : World) (s : State) (url : string) (resp : Response) : Prop :=
  exists req,
    request_of s url = Some req
    /\ requests_get w (List.length (sent s)) req = Ok resp.

(** The state after the first two statements of the body: the clock was
    read if no time of a first request was passed, and a run with a
    positive [retry_counter] has drawn a random number and slept. *)
Definition after_backoff (w : World) (s : State) (first_request_time : option Z)
    (retry_counter : Z) : State :=
  mkState (ctx s) (params s)
    (match first_request_time with
     | None => S (clock_reads s)
     | Some _ => clock_reads s
     end)
    (if 0 <? retry_counter then S (draws s) else draws s)
    (if 0 <? retry_counter
     then (delay_seconds retry_counter * (random_random w (draws s) + (1 # 2)))%Q
          :: slept s
     else slept s)
    (sent s).

(** The state after a run that got a response to the request [req]. *)
Definition after_response (w : World) (s : State) (url : string)
    (first_request_time : option Z) (retry_counter : Z) (req : Request) : State :=
  let b := after_backoff w s first_request_time retry_counter in
  mkState (ctx s) (snd (fst (_auth_url (ctx s) url (params s))))
    (S (clock_reads b)) (draws b) (slept b) (req :: sent s).

(** ** Example objects *)

(** A version of requests that has connect/read timeouts, and two Contexts
    used as examples below. *)
Definition requests_2_4_0 : string := "2.4.0".

Definition key_context : Context :=
  mkContext (Some "AIzaSyExampleKey") (Single None) None None (timedelta_seconds 60).

Definition work_context : Context :=
  mkContext None (Single None) (Some "clientID")
    (Some "vNIXE0xscrmjlyV-12Nj_BvUPaw=") (timedelta_seconds 60).

(** A world whose clock advances by one second at each reading, whose
    random draws are all 0.25, and whose server gives the same response to
    every request; and the state of a call that has had no effect yet. *)
Definition steady_world (resp : Response) : World :=
  mkWorld (fun k => Z.of_nat k * 1000000) (fun _ => 1 # 4) (fun _ _ => Ok resp).

Definition fresh (c : Context) (p : dict) : State := mkState c p 0 0 [] [].

Definition ok_response : Response :=
  mkResponse 200 (JSONObject [("status", PStr "OK"); ("results", POther "[]")]).

Definition invalid_request_response : Response :=
  mkResponse 200
    (JSONObject [("status", PStr "INVALID_REQUEST");
                 ("error_message", PStr "bad param")]).


(** A response as a transforming proxy gives it: status 203 and the body of
    the origin, here the quota error of the API. *)
Definition proxied_quota_response : Response :=
  mkResponse 203 (JSONObject [("status", PStr "OVER_QUERY_LIMIT")]).

(** ** Notions of the further properties *)

(** Bytes: every element is in the range of a byte. *)
Definition bytes_ok (b : bytes) : Prop := Forall (fun x => 0 <= x < 256) b.

(** A character of the URL-safe base64 alphabet or the padding. *)
Definition urlsafe_char (c : ascii) : bool :=
  existsb (Ascii.eqb c) (list_ascii_of_string base64.alphabet) || Ascii.eqb c "=".

(** The values 0 .. n-1. *)
Definition below (n : nat) : list Z := map Z.of_nat (seq 0 n).

(** Whether a response makes [classify] call [_get] again while the budget
    lasts: status 500, 503 or 504, or a status for which
    [raise_for_status] is not called or returns, with the quota status in
    the body. *)
Definition retryable (resp : Response) : bool :=
  existsb (Z.eqb (status_code resp)) [500; 503; 504]
  || (((status_code resp =? 200)
       || negb ((400 <=? status_code resp) && (status_code resp <? 600)))
      && match body_content resp with
         | JSONObject d =>
             match dict_get "status" d with
             | Some v => eq_str v "OVER_QUERY_LIMIT"
             | None => false
             end
         | _ => false
         end).

(** In a call entered in state [s], the index of the clock reading taken
    after the response of the [i]-th run of the body (counted from 0), and
    whether that reading is within the retry budget. *)
Definition finish_index (s : State) (first_request_time : option Z) (i : nat) : nat :=
  (match first_request_time with
   | None => S (clock_reads s)
   | Some _ => clock_reads s
   end + i)%nat.

Definition within_budget (w : World) (s : State) (first_request_time : option Z)
    (i : nat) : bool :=
  negb (retry_timeout (ctx s)
        <? datetime_now w (finish_index s first_request_time i)
           - first_time w s first_request_time).

(** The state after [k] runs of the body that each got a response to the
    request [req] and called [_get] again. *)
Fixpoint after_retries (w : World) (url : string) (req : Request) (k : nat)
    (first_request_time : option Z) (retry_counter : Z) (s : State) : State :=
  match k with
  | O => s
  | S k' =>
      after_retries w url req k' (Some (first_time w s first_request_time))
        (retry_counter + 1)
        (after_response w s url first_request_time retry_counter req)
  end.

(** A Context with a retry budget of two seconds, and responses of a server
    that is unavailable or over its quota. *)
Definition hasty_context : Context :=
  mkContext (Some "AIzaSyExampleKey") (Single None) None None (timedelta_seconds 2).

Definition unavailable_response : Response := mkResponse 503 NotJSON.

Definition quota_response : Response :=
  mkResponse 200
    (JSONObject [("status", PStr "OVER_QUERY_LIMIT");
                 ("error_message", PStr "You have exceeded your daily request quota")]).

(** A world whose network is down. *)
Definition offline_world : World :=
  mkWorld (fun k => Z.of_nat k * 1000000) (fun _ => 1 # 4)
    (fun _ _ => Raise ConnectionError).

(** * Properties *)

(** ** Dictionaries *)

Lemma dict_get_set_same (k : string) (v : pyval) (d : dict) :
  dict_get k (dict_set k v d) = Some v.
Proof.
  induction d as [|[k' v'] d IH]; simpl.
  - now rewrite String.eqb_refl.
  - destruct (String.eqb k k') eqn:E; simpl; rewrite E; auto.
Qed.

Lemma dict_get_set_other (k k' : string) (v : pyval) (d : dict) :
  k' <> k -> dict_get k' (dict_set k v d) = dict_get k' d.
Proof.
  intros Hne. induction d as [|[k0 v0] d IH]; simpl.
  - destruct (String.eqb_spec k' k); [contradiction | reflexivity].
  - destruct (String.eqb_spec k k0) as [->|Hk]; simpl.
    + destruct (String.eqb_spec k' k0); [contradiction | reflexivity].
    + destruct (String.eqb k' k0); auto.
Qed.

Lemma dict_set_idempotent (k : string) (v : pyval) (d : dict) :
  dict_set k v (dict_set k v d) = dict_set k v d.
Proof.
  induction d as [|[k' v'] d IH]; simpl.
  - now rewrite String.eqb_refl.
  - destruct (String.eqb k k') eqn:E; simpl; rewrite E; [reflexivity | now rewrite IH].
Qed.

Lemma eq_str_true (v : pyval) (lit : string) : eq_str v lit = true <-> v = PStr lit.
Proof.
  unfold eq_str. destruct v; simpl; split; try discriminate.
  - intros H. apply String.eqb_eq in H. now subst.
  - intros H. injection H as ->. apply String.eqb_refl.
Qed.

Lemma eq_str_false (v : pyval) (lit : string) : v <> PStr lit -> eq_str v lit = false.
Proof.
  intros H. destruct (eq_str v lit) eqn:E; [|reflexivity].
  apply eq_str_true in E. contradiction.
Qed.

(** ** The library functions on published values *)

(** SHA-1 of "abc" (FIPS 180), HMAC-SHA1 of the second test case of
    RFC 2202, and base64 of the examples of RFC 4648. *)
Example sha1_abc :
  hashlib.sha1 (encode_utf8 "abc")
  = [169; 153; 62; 54; 71; 6; 129; 106; 186; 62;
     37; 113; 120; 80; 194; 108; 156; 208; 216; 157].
Proof. vm_compute. reflexivity. Qed.

Example hmac_sha1_rfc2202 :
  hmac.digest_sha1 (encode_utf8 "Jefe") (encode_utf8 "what do ya want for nothing?")
  = [239; 252; 223; 106; 229; 235; 47; 162; 210; 116;
     22; 213; 241; 132; 223; 156; 37; 154; 124; 121].
Proof. vm_compute. reflexivity. Qed.

Example base64_rfc4648 :
  decode_utf8 (base64.urlsafe_b64encode (encode_utf8 "foobar")) = "Zm9vYmFy"
  /\ decode_utf8 (base64.urlsafe_b64encode (encode_utf8 "fooba")) = "Zm9vYmE="
  /\ decode_utf8 (base64.urlsafe_b64encode (encode_utf8 "foob")) = "Zm9vYg=="
  /\ base64.urlsafe_b64decode "Zm9vYmFy" = Ok (encode_utf8 "foobar")
  /\ base64.urlsafe_b64decode "Zm9vYmE=" = Ok (encode_utf8 "fooba")
  /\ base64.urlsafe_b64decode "Zm9vYg==" = Ok (encode_utf8 "foob")
  /\ base64.urlsafe_b64decode "Zm9vYg" = Raise BinasciiError.
Proof. repeat split; vm_compute; reflexivity. Qed.

Example urlencode_example :
  urllib.urlencode [("address", PStr "1600 Amphitheatre Pkwy, CA"); ("n", POther "3")]
  = "address=1600+Amphitheatre+Pkwy%2C+CA&n=3".
Proof. reflexivity. Qed.

(** ** Construction of a Context *)

Section Construction.

Variable requests_version : string.
Variables key_ client_id_ client_secret_ : option string.
Variables timeout_ connect_timeout read_timeout : option Z.
Variable retry_timeout_ : Z.

Local Abbreviation ok :=
  (credentials_ok key_ client_id_ client_secret_).

Local Abbreviation init :=
  (Context__init__ requests_version key_ client_id_ client_secret_
     timeout_ connect_timeout read_timeout retry_timeout_).

(** A Context that was constructed holds the arguments it was given. *)
Lemma Context__init___fields (c : Context) :
  init = Ok c ->
  key c = key_ /\ client_id c = client_id_ /\ client_secret c = client_secret_
  /\ retry_timeout c = timedelta_seconds retry_timeout_
  /\ ok = true.
Proof.
  unfold Context__init__, credentials_ok.
  destruct (truthy key_) eqn:Hk; simpl.
  - destruct (startswith key_ "AIza"); simpl; [|discriminate].
    destruct (truthy timeout_ && (truthy connect_timeout || truthy read_timeout));
      [discriminate|].
    destruct (truthy connect_timeout && truthy read_timeout); simpl.
    + destruct (index (split "." requests_version) 0); discriminate.
    + intros H; injection H as <-; simpl; auto.
  - destruct (truthy client_secret_ && truthy client_id_); simpl; [|discriminate].
    destruct (truthy timeout_ && (truthy connect_timeout || truthy read_timeout));
      [discriminate|].
    destruct (truthy connect_timeout && truthy read_timeout); simpl.
    + destruct (index (split "." requests_version) 0); discriminate.
    + intros H; injection H as <-; simpl; auto.
Qed.

(** Without the connect/read pair, acceptable credentials and at most one
    timeout form give a Context. *)
Lemma Context__init___succeeds :
  ok = true ->
  truthy connect_timeout && truthy read_timeout = false ->
  truthy timeout_ && (truthy connect_timeout || truthy read_timeout) = false ->
  init = Ok (mkContext key_ (Single timeout_) client_id_ client_secret_
               (timedelta_seconds retry_timeout_)).
Proof.
  unfold Context__init__, credentials_ok. intros Hc Hp Ht.
  rewrite Ht, Hp.
  destruct (truthy key_); simpl in *; rewrite Hc; reflexivity.
Qed.

(** Every invalid combination raises [ValueError]. *)
Lemma Context__init___ValueError :
  ok = false
  \/ truthy timeout_ && (truthy connect_timeout || truthy read_timeout) = true ->
  exists msg, init = Raise (ValueError msg).
Proof.
  unfold Context__init__, credentials_ok.
  destruct (truthy key_); simpl;
    [destruct (startswith key_ "AIza")
    |destruct (truthy client_secret_ && truthy client_id_)]; simpl;
    intros [H|H]; try discriminate; try (eexists; reflexivity);
    rewrite H; eexists; reflexivity.
Qed.

(** With the connect/read pair, construction reaches the comparison of a
    [str] with an [int] and raises [TypeError], whatever the version of
    requests. *)
Lemma Context__init___pair_TypeError :
  ok = true ->
  truthy timeout_ = false ->
  truthy connect_timeout && truthy read_timeout = true ->
  init = Raise TypeError.
Proof.
  unfold Context__init__, credentials_ok. intros Hc Ht Hp.
  rewrite Ht, Hp. simpl.
  assert (Hi : exists c0, index (split "." requests_version) 0 = Ok c0).
  { unfold index. destruct requests_version as [|a s]; simpl; [eauto|].
    destruct (Ascii.eqb a "."); simpl; [eauto|].
    destruct (split "." s); simpl; eauto. }
  destruct Hi as [c0 ->].
  destruct (truthy key_); simpl in *; rewrite Hc; reflexivity.
Qed.

End Construction.

(** The branch that raises [NotImplementedError] is never taken: the
    comparison that guards it raises first. *)
Lemma Context__init___never_NotImplementedError
    (v : string) (k cid sec : option string) (t ct rt : option Z) (r : Z)
    (msg : string) :
  Context__init__ v k cid sec t ct rt r <> Raise (NotImplementedError msg).
Proof.
  unfold Context__init__.
  destruct (negb (truthy k) && negb (truthy sec && truthy cid)); [discriminate|].
  destruct (truthy k && negb (startswith k "AIza")); [discriminate|].
  destruct (truthy t && (truthy ct || truthy rt)); [discriminate|].
  destruct (truthy ct && truthy rt); cbn [bind]; [|discriminate].
  unfold index.
  destruct (nth_error (split "." v) 0); cbn [bind str_lt_int]; discriminate.
Qed.

(** C2, at the input where the code departs from it: an API key with the
    required prefix and the connect/read timeout pair as the only timeout
    form.  Construction does not succeed: the check of the version of
    requests compares a [str] with an [int] and raises [TypeError]. *)
Theorem Context__init___connect_read_pair :
  Context__init__ requests_2_4_0 (Some "AIzaSyExampleKey") None None
    None (Some 5) (Some 10) 60
  = Raise TypeError.
Proof. reflexivity. Qed.

(** C7 as stated fails: a Context given an API key and the enterprise pair
    passes construction with both credential modes set. *)
Lemma both_credential_modes_pass_construction :
  exists c,
    Context__init__ requests_2_4_0 (Some "AIzaSyExampleKey") (Some "clientID")
      (Some "vNIXE0xscrmjlyV-12Nj_BvUPaw=") None None None 60 = Ok c
    /\ api_key_mode c = true /\ enterprise_mode c = true.
Proof. eexists. split; [reflexivity|]. split; reflexivity. Qed.

(** C7, amended: every Context that passes construction has at least one
    credential mode set, API-key mode (the key is set) or enterprise mode
    (client_id and client_secret are both set), and possibly both;
    construction fails with [ValueError] when neither is supplied. *)
Theorem construction_sets_a_credential_mode
    (v : string) (k cid sec : option string) (t ct rt : option Z) (r : Z) :
  (forall c, Context__init__ v k cid sec t ct rt r = Ok c ->
             api_key_mode c || enterprise_mode c = true)
  /\ (truthy k = false -> truthy cid && truthy sec = false ->
      exists msg, Context__init__ v k cid sec t ct rt r = Raise (ValueError msg)).
Proof.
  split.
  - intros c H. apply Context__init___fields in H.
    destruct H as (Hk & Hi & Hs & _ & Hc).
    unfold api_key_mode, enterprise_mode, credentials_ok in *.
    rewrite Hk, Hi, Hs. destruct (truthy k); simpl; [reflexivity|].
    now rewrite andb_comm.
  - intros Hk Hp. apply Context__init___ValueError. left.
    unfold credentials_ok. rewrite Hk. now rewrite andb_comm.
Qed.

Lemma construction_sets_a_credential_mode_witness :
  api_key_mode key_context || enterprise_mode key_context = true
  /\ exists msg,
       Context__init__ requests_2_4_0 None (Some "clientID") None None None None 60
       = Raise (ValueError msg).
Proof.
  split.
  - apply (proj1 (construction_sets_a_credential_mode requests_2_4_0
                    (Some "AIzaSyExampleKey") None None None None None 60)).
    reflexivity.
  - apply (proj2 (construction_sets_a_credential_mode requests_2_4_0
                    None (Some "clientID") None None None None 60));
      reflexivity.
Defined.

(** ** Signing *)

(** [_auth_url] leaves the Context as it found it. *)
Lemma _auth_url_self (self : Context) (path : string) (params0 : dict) :
  fst (fst (_auth_url self path params0)) = self.
Proof.
  unfold _auth_url.
  destruct (truthy (key self)); [reflexivity|].
  destruct (truthy (client_id self) && truthy (client_secret self)); reflexivity.
Qed.

(** The dict after a call of [_auth_url], by credential mode. *)
Lemma _auth_url_params (self : Context) (path : string) (params0 : dict) :
  snd (fst (_auth_url self path params0)) =
  if api_key_mode self then dict_set "key" (pyval_of (key self)) params0
  else if enterprise_mode self then dict_set "client" (pyval_of (client_id self)) params0
  else params0.
Proof.
  unfold _auth_url, api_key_mode, enterprise_mode.
  destruct (truthy (key self)); [reflexivity|].
  destruct (truthy (client_id self) && truthy (client_secret self)); reflexivity.
Qed.

(** C3 as stated fails: a Context constructed in enterprise mode with a
    client_secret that is not base64 gets no URL from signing; decoding the
    secret raises. *)
Lemma enterprise_signing_malformed_secret :
  exists c,
    Context__init__ requests_2_4_0 None (Some "clientID") (Some "not base64")
      None None None 60 = Ok c
    /\ api_key_mode c = false /\ enterprise_mode c = true
    /\ snd (_auth_url c "/maps/api/geocode/json" [("address", PStr "New York")])
       = Raise BinasciiError.
Proof.
  eexists. split; [reflexivity|]. repeat split; vm_compute; reflexivity.
Qed.

(** C3, amended: for every Context in enterprise mode (no API key, client_id
    and client_secret set) whose client_secret decodes as base64url, and
    every path and params, signing returns
    path + "?" + urlencode(params with "client" = client_id)
    + "&signature=" + sig, where sig is the reference signature of the path
    with its query string under the decoded secret. *)
Theorem enterprise_signing
    (self : Context) (path : string) (params0 : dict)
    (cid sec : string) (k : bytes) :
  api_key_mode self = false ->
  enterprise_mode self = true ->
  client_id self = Some cid ->
  client_secret self = Some sec ->
  base64.urlsafe_b64decode sec = Ok k ->
  let signedPath :=
    path ++ "?" ++ urllib.urlencode (dict_set "client" (PStr cid) params0) in
  snd (_auth_url self path params0)
  = Ok (Some (signedPath ++ "&signature=" ++ reference_signature k signedPath)).
Proof.
  unfold api_key_mode, enterprise_mode, _auth_url. intros Hk He Hc Hs Hd.
  rewrite Hk, He, Hc, Hs. simpl. unfold _hmac_sign. rewrite Hd. reflexivity.
Qed.

(** The example of the documentation of the Maps API for Work: client
    "clientID", the documented private key, and the signature the
    documentation gives for this URL. *)
Lemma enterprise_signing_witness :
  snd (_auth_url work_context "/maps/api/geocode/json" [("address", PStr "New York")])
  = Ok (Some ("/maps/api/geocode/json?address=New+York&client=clientID"
              ++ "&signature=chaRF2hTJKOScPr-RQCEhZbSzIE=")).
Proof.
  refine (eq_trans
            (enterprise_signing work_context "/maps/api/geocode/json"
               [("address", PStr "New York")] "clientID"
               "vNIXE0xscrmjlyV-12Nj_BvUPaw="
               [188; 210; 23; 19; 76; 108; 114; 185; 163; 151;
                37; 126; 215; 99; 99; 252; 27; 212; 61; 172]
               eq_refl eq_refl eq_refl eq_refl eq_refl)
            _).
  vm_compute. reflexivity.
Defined.

(** C9 as stated fails: a Context that passes construction with a
    client_secret that is not base64 gets no string from [_auth_url]; the
    call raises. *)
Lemma constructed_context_signing_raises :
  exists c,
    Context__init__ requests_2_4_0 None (Some "clientID") (Some "A")
      None None None 60 = Ok c
    /\ snd (_auth_url c "/maps/api/geocode/json" []) = Raise BinasciiError.
Proof. eexists. split; [reflexivity | vm_compute; reflexivity]. Qed.

(** C9, amended: for every Context that passes construction, and every path
    and params, [_auth_url] never falls through to return [None]: it returns
    a string, or, in enterprise mode, raises the error that decoding
    client_secret raised. *)
Theorem _auth_url_never_returns_None
    (v : string) (k cid sec : option string) (t ct rt : option Z) (r : Z)
    (c : Context) (path : string) (params0 : dict) :
  Context__init__ v k cid sec t ct rt r = Ok c ->
  snd (_auth_url c path params0) <> Ok None
  /\ ((exists s, snd (_auth_url c path params0) = Ok (Some s))
      \/ (exists secret e,
            api_key_mode c = false
            /\ client_secret c = Some secret
            /\ base64.urlsafe_b64decode secret = Raise e
            /\ snd (_auth_url c path params0) = Raise e)).
Proof.
  intros H. apply Context__init___fields in H.
  destruct H as (Hk & Hi & Hs & _ & Hc). subst k cid sec.
  unfold credentials_ok in Hc. unfold _auth_url, api_key_mode.
  destruct (truthy (key c)) eqn:Ek; simpl.
  - split; [discriminate | left; eauto].
  - rewrite andb_comm in Hc. rewrite Hc. simpl.
    destruct (client_secret c) as [secret|] eqn:Es;
      [|rewrite andb_comm in Hc; discriminate].
    unfold _hmac_sign.
    destruct (base64.urlsafe_b64decode secret) as [kb|e] eqn:Ed; simpl.
    + split; [discriminate | left; eauto].
    + split; [discriminate | right; exists secret, e; auto].
Qed.

Lemma _auth_url_never_returns_None_witness :
  snd (_auth_url key_context "/maps/api/geocode/json" []) <> Ok None
  /\ ((exists s, snd (_auth_url key_context "/maps/api/geocode/json" []) = Ok (Some s))
      \/ (exists secret e,
            api_key_mode key_context = false
            /\ client_secret key_context = Some secret
            /\ base64.urlsafe_b64decode secret = Raise e
            /\ snd (_auth_url key_context "/maps/api/geocode/json" []) = Raise e)).
Proof.
  apply (@_auth_url_never_returns_None requests_2_4_0
           (Some "AIzaSyExampleKey") None None None None None 60).
  reflexivity.
Defined.

(** C8: signing is deterministic.  Two calls of [_auth_url] with identical
    Context, path and params (entries in the same order) return identical
    strings, and so does a second call that is handed the very dict the
    first call has written its entry to. *)
Theorem _auth_url_deterministic
    (self self' : Context) (path path' : string) (params0 params0' : dict) :
  self' = self -> path' = path -> params0' = params0 ->
  snd (_auth_url self' path' params0') = snd (_auth_url self path params0)
  /\ snd (_auth_url self' path' (snd (fst (_auth_url self path params0))))
     = snd (_auth_url self path params0).
Proof.
  intros -> -> ->. split; [reflexivity|].
  rewrite _auth_url_params. unfold _auth_url, api_key_mode, enterprise_mode.
  destruct (truthy (key self)).
  - now rewrite dict_set_idempotent.
  - destruct (truthy (client_id self) && truthy (client_secret self)).
    + now rewrite dict_set_idempotent.
    + reflexivity.
Qed.

Lemma _auth_url_deterministic_witness :
  snd (_auth_url work_context "/maps/api/geocode/json" [("address", PStr "New York")])
  = snd (_auth_url work_context "/maps/api/geocode/json" [("address", PStr "New York")])
  /\ snd (_auth_url work_context "/maps/api/geocode/json"
            (snd (fst (_auth_url work_context "/maps/api/geocode/json"
                         [("address", PStr "New York")]))))
     = snd (_auth_url work_context "/maps/api/geocode/json" [("address", PStr "New York")]).
Proof.
  apply (@_auth_url_deterministic work_context work_context
           "/maps/api/geocode/json" "/maps/api/geocode/json"
           [("address", PStr "New York")] [("address", PStr "New York")]);
    reflexivity.
Defined.

(** The order of the entries of params shows in the signed URL. *)
Example _auth_url_order_of_params :
  snd (_auth_url key_context "/p" [("a", PStr "1"); ("b", PStr "2")])
  = Ok (Some "/p?a=1&b=2&key=AIzaSyExampleKey")
  /\ snd (_auth_url key_context "/p" [("b", PStr "2"); ("a", PStr "1")])
     = Ok (Some "/p?b=2&a=1&key=AIzaSyExampleKey").
Proof. split; reflexivity. Qed.

(** C10: signing mutates the caller's params and nothing of the Context.
    For every Context that passes construction and every call of
    [_auth_url], the Context is after the call as before; the dict maps
    "key" to the API key in API-key mode, and "client" to the client id in
    enterprise mode; every other key is mapped as before the call. *)
Theorem _auth_url_mutates_params
    (v : string) (k cid sec : option string) (t ct rt : option Z) (r : Z)
    (self : Context) (path : string) (params0 : dict) :
  Context__init__ v k cid sec t ct rt r = Ok self ->
  let self' := fst (fst (_auth_url self path params0)) in
  let params' := snd (fst (_auth_url self path params0)) in
  self' = self
  /\ ((api_key_mode self = true
       /\ exists apiKey, key self = Some apiKey
            /\ dict_get "key" params' = Some (PStr apiKey)
            /\ forall k', k' <> "key" -> dict_get k' params' = dict_get k' params0)
      \/ (api_key_mode self = false /\ enterprise_mode self = true
          /\ exists clientId, client_id self = Some clientId
               /\ dict_get "client" params' = Some (PStr clientId)
               /\ forall k', k' <> "client" ->
                    dict_get k' params' = dict_get k' params0)).
Proof.
  intros H. apply Context__init___fields in H.
  destruct H as (Hk & Hi & Hs & _ & Hc). subst k cid sec.
  cbv zeta. rewrite _auth_url_self, _auth_url_params. split; [reflexivity|].
  unfold credentials_ok in Hc. unfold api_key_mode, enterprise_mode.
  destruct (truthy (key self)) eqn:Ek.
  - left. split; [reflexivity|].
    destruct (key self) as [apiKey|]; [|discriminate].
    exists apiKey. split; [reflexivity|]. split.
    + apply dict_get_set_same.
    + intros k' Hne. now apply dict_get_set_other.
  - right. rewrite andb_comm in Hc. rewrite Hc. split; [reflexivity|].
    split; [reflexivity|].
    destruct (client_id self) as [clientId|]; [|discriminate].
    exists clientId. split; [reflexivity|]. split.
    + apply dict_get_set_same.
    + intros k' Hne. now apply dict_get_set_other.
Qed.

Lemma _auth_url_mutates_params_witness :
  fst (fst (_auth_url work_context "/p" [("address", PStr "New York")]))
  = work_context
  /\ dict_get "client"
       (snd (fst (_auth_url work_context "/p" [("address", PStr "New York")])))
     = Some (PStr "clientID").
Proof.
  destruct (_auth_url_mutates_params requests_2_4_0 None (Some "clientID")
              (Some "vNIXE0xscrmjlyV-12Nj_BvUPaw=") None None None 60
              work_context "/p" [("address", PStr "New York")] eq_refl)
    as [Hself [(Hmode & _) | (_ & _ & clientId & Hid & Hget & _)]].
  - discriminate Hmode.
  - split; [exact Hself|]. injection Hid as <-. exact Hget.
Defined.

(** ** One run of the body of [_get] *)

Section Attempt.

Variable w : World.

Lemma auth_url_run (url : string) (s : State) :
  auth_url url s =
  (mkState (ctx s) (snd (fst (_auth_url (ctx s) url (params s))))
     (clock_reads s) (draws s) (slept s) (sent s),
   snd (_auth_url (ctx s) url (params s))).
Proof.
  unfold auth_url. pose proof (_auth_url_self (ctx s) url (params s)) as H.
  destruct (_auth_url (ctx s) url (params s)) as [[self p] r].
  simpl in *. now subst.
Qed.

Ltac run_attempt :=
  unfold bindM, ret, lift, now, random, sleep, get, ctx_timeout, ctx_retry_timeout;
  cbn beta iota delta [fst snd ctx params clock_reads draws slept sent];
  repeat (rewrite auth_url_run;
          cbn beta iota delta [fst snd ctx params clock_reads draws slept sent]).

(** A run whose request is answered ends as [classify] says. *)
Lemma attempt_answered (s : State) (url : string)
    (first_request_time : option Z) (retry_counter : Z)
    (req : Request) (resp : Response) :
  request_of s url = Some req ->
  requests_get w (List.length (sent s)) req = Ok resp ->
  attempt w url first_request_time retry_counter s =
  (after_response w s url first_request_time retry_counter req,
   classify resp (exceeded_timeout w s first_request_time)
     (first_time w s first_request_time) retry_counter).
Proof.
  unfold request_of, after_response, after_backoff, exceeded_timeout,
    first_time, finish_time, attempt.
  intros Hreq Hget.
  destruct (snd (_auth_url (ctx s) url (params s))) as [[p|]|] eqn:Hs;
    try discriminate.
  apply (f_equal (fun o => match o with Some r => r | None => req end)) in Hreq.
  cbv beta iota in Hreq. subst req.
  destruct first_request_time as [t|]; destruct (0 <? retry_counter);
    run_attempt; rewrite Hs;
    cbn beta iota delta [fst snd ctx params clock_reads draws slept sent];
    rewrite Hget; reflexivity.
Qed.

(** Whatever becomes of the request, the sleeps, the random draws and the
    two objects are, after the run, as the first statements and
    [_auth_url] left them. *)
Lemma attempt_effects (s : State) (url : string)
    (first_request_time : option Z) (retry_counter : Z) :
  let s' := fst (attempt w url first_request_time retry_counter s) in
  slept s' = slept (after_backoff w s first_request_time retry_counter)
  /\ draws s' = draws (after_backoff w s first_request_time retry_counter)
  /\ ctx s' = ctx s
  /\ params s' = snd (fst (_auth_url (ctx s) url (params s))).
Proof.
  unfold after_backoff, attempt.
  destruct first_request_time as [t|]; destruct (0 <? retry_counter);
    run_attempt;
    (destruct (snd (_auth_url (ctx s) url (params s))) as [[p|]|];
     cbn [fst snd ctx params clock_reads draws slept sent];
     [|auto|auto]);
    match goal with
    | |- context [requests_get w ?n ?r] => destruct (requests_get w n r)
    end;
    cbn [fst snd ctx params clock_reads draws slept sent]; auto.
Qed.

End Attempt.

(** ** The backoff *)

Lemma delay_seconds_positive (retry_counter : Z) : (0 < delay_seconds retry_counter)%Q.
Proof.
  unfold delay_seconds. apply Qmult_lt_0_compat; [reflexivity|].
  apply Qpower_0_lt. reflexivity.
Qed.

(** A draw in [0, 1) gives a sleep in [0.5 * delay, 1.5 * delay). *)
Lemma jitter_bounds (d r : Q) :
  (0 < d -> 0 <= r -> r < 1 ->
   (1 # 2) * d <= d * (r + (1 # 2)) /\ d * (r + (1 # 2)) < (3 # 2) * d)%Q.
Proof. intros Hd H0 H1. split; nra. Qed.

(** The draws for which the sleep falls in [a, b) are those of
    [a / delay - 0.5, b / delay - 0.5). *)
Lemma jitter_preimage (d a b r : Q) :
  (0 < d ->
   (a <= d * (r + (1 # 2)) /\ d * (r + (1 # 2)) < b
    <-> a / d - (1 # 2) <= r /\ r < b / d - (1 # 2)))%Q.
Proof.
  intros Hd.
  assert (Hne : ~ (d == 0)%Q) by lra.
  assert (Ha : (a == d * (a / d))%Q) by (field; exact Hne).
  assert (Hb : (b == d * (b / d))%Q) by (field; exact Hne).
  split; intros [H1 H2]; split.
  - rewrite Ha in H1. apply Qmult_le_l in H1; [lra | exact Hd].
  - rewrite Hb in H2. apply Qmult_lt_l in H2; [lra | exact Hd].
  - rewrite Ha. apply Qmult_le_l; [exact Hd | lra].
  - rewrite Hb. apply Qmult_lt_l; [exact Hd | lra].
Qed.

(** For [a, b) inside [0.5 * delay, 1.5 * delay], that interval of draws
    lies in [0, 1] and its length is (b - a) / delay. *)
Lemma jitter_preimage_length (d a b : Q) :
  (0 < d -> (1 # 2) * d <= a -> a <= b -> b <= (3 # 2) * d ->
   0 <= a / d - (1 # 2) /\ b / d - (1 # 2) <= 1
   /\ (b / d - (1 # 2)) - (a / d - (1 # 2)) == (b - a) / d)%Q.
Proof.
  intros Hd Hl Hab Hu.
  assert (Hne : ~ (d == 0)%Q) by lra.
  split; [|split].
  - assert ((1 # 2) <= a / d)%Q; [|lra]. apply Qle_shift_div_l; lra.
  - assert (b / d <= (3 # 2))%Q; [|lra]. apply Qle_shift_div_r; lra.
  - field. exact Hne.
Qed.

(** C4: for every run of the body with retry_counter >= 1, the delay before
    jitter is 0.5 * 1.5^(retry_counter - 1) seconds (0.5, 0.75, 1.125 for
    retry_counter 1, 2, 3), and the run sleeps once, for that delay times
    (r + 0.5), where r is the draw of random.random().  A draw in [0, 1)
    gives a sleep between 0.5 and 1.5 times the delay, and the sleep is
    uniform on that range when the draw is uniform: the draws that put the
    sleep in a subrange [a, b) are those of a subinterval of [0, 1] of
    length (b - a) / delay.  A run with retry_counter = 0 draws nothing and
    does not sleep.  (Seconds are exact rationals here.) *)
Theorem backoff_delay (w : World) (url : string)
    (first_request_time : option Z) (retry_counter : Z) (s : State) :
  let s' := fst (attempt w url first_request_time retry_counter s) in
  let delay := ((1 # 2) * (3 # 2) ^ (retry_counter - 1))%Q in
  let r := random_random w (draws s) in
  (1 <= retry_counter ->
     slept s' = (delay * (r + (1 # 2)))%Q :: slept s
     /\ ((0 <= r)%Q -> (r < 1)%Q ->
         ((1 # 2) * delay <= delay * (r + (1 # 2)))%Q
         /\ (delay * (r + (1 # 2)) < (3 # 2) * delay)%Q)
     /\ (forall a b,
           ((1 # 2) * delay <= a)%Q -> (a <= b)%Q -> (b <= (3 # 2) * delay)%Q ->
           (0 <= a / delay - (1 # 2))%Q
           /\ (b / delay - (1 # 2) <= 1)%Q
           /\ ((b / delay - (1 # 2)) - (a / delay - (1 # 2)) == (b - a) / delay)%Q
           /\ forall r',
                ((a <= delay * (r' + (1 # 2)) /\ delay * (r' + (1 # 2)) < b)
                 <-> (a / delay - (1 # 2) <= r' /\ r' < b / delay - (1 # 2)))%Q))
  /\ (retry_counter = 0 -> slept s' = slept s /\ draws s' = draws s)
  /\ (delay_seconds 1 == 1 # 2)%Q
  /\ (delay_seconds 2 == 3 # 4)%Q
  /\ (delay_seconds 3 == 9 # 8)%Q.
Proof.
  cbv zeta.
  destruct (attempt_effects w s url first_request_time retry_counter)
    as (Hs & Hd & _ & _).
  unfold after_backoff in Hs, Hd. cbn [slept draws] in Hs, Hd.
  split; [|split; [|repeat split; reflexivity]].
  - intros Hrc. assert (E : (0 <? retry_counter) = true) by (apply Z.ltb_lt; lia).
    rewrite E in Hs. pose proof (delay_seconds_positive retry_counter) as Hp.
    unfold delay_seconds in Hs, Hp. split; [exact Hs|]. split.
    + intros H0 H1. now apply jitter_bounds.
    + intros a b Hl Hab Hu.
      destruct (jitter_preimage_length _ a b Hp Hl Hab Hu) as (Hlo & Hhi & Hlen).
      split; [exact Hlo | split; [exact Hhi | split; [exact Hlen |]]].
      intros r'. now apply jitter_preimage.
  - intros ->. now rewrite Hs, Hd.
Qed.

(** ** What becomes of a response *)

Section Classification.

Variable resp : Response.
Variable exceeded : bool.
Variable first_request_time : Z.
Variable retry_counter : Z.

Local Abbreviation outcome :=
  (classify resp exceeded first_request_time retry_counter).

(** 500, 503 and 504 within the budget: call [_get] again, with the same
    time of the first request and the next [retry_counter]. *)
Lemma classify_server_error_retry :
  In (status_code resp) [500; 503; 504] -> exceeded = false ->
  outcome = Ok (Recurse first_request_time (retry_counter + 1)).
Proof.
  unfold classify. intros Hin ->.
  simpl in Hin. destruct Hin as [<-|[<-|[<-|[]]]]; reflexivity.
Qed.

(** A status of the client or server error classes that is not retried
    raises the transport error with that status. *)
Lemma classify_error_status :
  400 <= status_code resp < 600 ->
  ~ In (status_code resp) [500; 503; 504] \/ exceeded = true ->
  outcome = Raise (HTTPError (status_code resp)).
Proof.
  unfold classify, raise_for_status. intros Hr Hn.
  assert (E : existsb (Z.eqb (status_code resp)) [500; 503; 504] && negb exceeded = false).
  { destruct Hn as [Hn| ->]; [|apply andb_false_r].
    apply andb_false_intro1. simpl in *.
    destruct (Z.eqb_spec (status_code resp) 500); [exfalso; apply Hn; lia|].
    destruct (Z.eqb_spec (status_code resp) 503); [exfalso; apply Hn; lia|].
    destruct (Z.eqb_spec (status_code resp) 504); [exfalso; apply Hn; lia|].
    reflexivity. }
  rewrite E.
  assert (E200 : (status_code resp =? 200) = false) by (apply Z.eqb_neq; lia).
  rewrite E200. simpl.
  assert (El : (400 <=? status_code resp) = true) by (apply Z.leb_le; lia).
  assert (Eu : (status_code resp <? 600) = true) by (apply Z.ltb_lt; lia).
  now rewrite El, Eu.
Qed.

(** A response whose status is of no error class gets its body examined;
    200 is one such status. *)
Lemma classify_body (d : dict) (v : pyval) :
  status_code resp = 200 \/ ~ 400 <= status_code resp < 600 ->
  body_content resp = JSONObject d ->
  dict_get "status" d = Some v ->
  outcome =
  if eq_str v "OK" || eq_str v "ZERO_RESULTS" then Ok (Return (Dict d))
  else if eq_str v "OVER_QUERY_LIMIT" && negb exceeded
  then Ok (Recurse first_request_time (retry_counter + 1))
  else Raise (RaisedApiError
         (ApiError__init__ v (dict_get "error_message" d))).
Proof.
  unfold classify, raise_for_status, json, subscript, contains, dict_mem.
  intros Hsc Hb Hst. rewrite Hb.
  assert (E : existsb (Z.eqb (status_code resp)) [500; 503; 504] = false).
  { simpl.
    destruct (Z.eqb_spec (status_code resp) 500); [lia|].
    destruct (Z.eqb_spec (status_code resp) 503); [lia|].
    destruct (Z.eqb_spec (status_code resp) 504); [lia|]. reflexivity. }
  rewrite E. simpl.
  assert (Ers : (if negb (status_code resp =? 200)
                 then if (400 <=? status_code resp) && (status_code resp <? 600)
                      then Raise (HTTPError (status_code resp)) else Ok tt
                 else Ok tt) = Ok tt).
  { destruct (Z.eqb_spec (status_code resp) 200); simpl; [reflexivity|].
    destruct (Z.leb_spec 400 (status_code resp));
      destruct (Z.ltb_spec (status_code resp) 600); simpl; try reflexivity.
    lia. }
  rewrite Ers. simpl. rewrite Hst. simpl.
  destruct (eq_str v "OK" || eq_str v "ZERO_RESULTS"); [reflexivity|].
  destruct (eq_str v "OVER_QUERY_LIMIT" && negb exceeded); [reflexivity|].
  destruct (dict_get "error_message" d); reflexivity.
Qed.

End Classification.

(** ** Runs of [_get] *)

(** C5: for every HTTP 200 response whose JSON body has status "OK" or
    "ZERO_RESULTS", [_get] returns that parsed body unchanged, having sent
    this one request and no other; on a first attempt (retry_counter = 0)
    it has not slept. *)
Theorem _get_returns_body (w : World) (fuel : nat) (url : string)
    (first_request_time : option Z) (retry_counter : Z) (s : State)
    (resp : Response) (d : dict) (v : pyval) :
  answered w s url resp ->
  status_code resp = 200 ->
  body_content resp = JSONObject d ->
  dict_get "status" d = Some v ->
  v = PStr "OK" \/ v = PStr "ZERO_RESULTS" ->
  snd (_get w (S fuel) url first_request_time retry_counter s) = Some (Ok (Dict d))
  /\ List.length (sent (fst (_get w (S fuel) url first_request_time retry_counter s)))
     = S (List.length (sent s))
  /\ (retry_counter = 0 ->
      slept (fst (_get w (S fuel) url first_request_time retry_counter s)) = slept s).
Proof.
  intros (req & Hreq & Hget) Hcode Hbody Hstatus Hv.
  cbn [_get].
  rewrite (attempt_answered w s url first_request_time retry_counter req resp Hreq Hget).
  rewrite (classify_body _ _ _ _ _ _ (or_introl Hcode) Hbody Hstatus).
  assert (E : eq_str v "OK" || eq_str v "ZERO_RESULTS" = true)
    by (destruct Hv as [-> | ->]; reflexivity).
  rewrite E. cbn [fst snd]. split; [reflexivity|]. split; [reflexivity|].
  intros ->. reflexivity.
Qed.

(** C6: for every HTTP 200 response whose JSON body status is not "OK",
    "ZERO_RESULTS" or "OVER_QUERY_LIMIT", [_get] raises, having sent this one
    request and no other, an ApiError whose status is the body's status and
    whose message is the body's error_message when the body has one, and
    None otherwise.  The string form of every ApiError is its status alone
    when the message is None, and "status (message)" otherwise. *)
Theorem _get_raises_ApiError (w : World) (fuel : nat) (url : string)
    (first_request_time : option Z) (retry_counter : Z) (s : State)
    (resp : Response) (d : dict) (v : pyval) :
  answered w s url resp ->
  status_code resp = 200 ->
  body_content resp = JSONObject d ->
  dict_get "status" d = Some v ->
  v <> PStr "OK" -> v <> PStr "ZERO_RESULTS" -> v <> PStr "OVER_QUERY_LIMIT" ->
  (exists e,
     snd (_get w (S fuel) url first_request_time retry_counter s)
     = Some (Raise (RaisedApiError e))
     /\ status e = v
     /\ message e = match dict_get "error_message" d with
                    | Some m => m
                    | None => PNone
                    end)
  /\ List.length (sent (fst (_get w (S fuel) url first_request_time retry_counter s)))
     = S (List.length (sent s))
  /\ (forall e : ApiError,
        (message e = PNone -> ApiError__str__ e = status e)
        /\ (message e <> PNone ->
            ApiError__str__ e
            = PStr (py_str (status e) ++ " (" ++ py_str (message e) ++ ")"))).
Proof.
  intros (req & Hreq & Hget) Hcode Hbody Hstatus Hok Hzero Hquota.
  cbn [_get].
  rewrite (attempt_answered w s url first_request_time retry_counter req resp Hreq Hget).
  rewrite (classify_body _ _ _ _ _ _ (or_introl Hcode) Hbody Hstatus).
  rewrite (eq_str_false _ _ Hok), (eq_str_false _ _ Hzero), (eq_str_false _ _ Hquota).
  cbn [orb andb fst snd]. split; [|split; [reflexivity|]].
  - eexists. split; [reflexivity|]. split; reflexivity.
  - intros e. unfold ApiError__str__. split.
    + intros ->. reflexivity.
    + intros Hm. destruct (message e); [contradiction | reflexivity | reflexivity].
Qed.

Lemma steady_world_answers (resp : Response) (c : Context) (p : dict) (url : string) :
  (exists q, snd (_auth_url c url p) = Ok (Some q)) ->
  answered (steady_world resp) (fresh c p) url resp.
Proof.
  intros [q Hq]. unfold answered, request_of. cbn [ctx params fresh].
  rewrite Hq. eexists. split; reflexivity.
Qed.

Lemma backoff_delay_witness :
  slept (fst (attempt (steady_world ok_response) "/maps/api/geocode/json"
                (Some 0) 2 (fresh key_context [])))
  = (((1 # 2) * (3 # 2) ^ (2 - 1)) * ((1 # 4) + (1 # 2)))%Q :: []
  /\ slept (fst (attempt (steady_world ok_response) "/maps/api/geocode/json"
                   None 0 (fresh key_context [])))
     = [].
Proof.
  split.
  - apply (proj1 (proj1 (backoff_delay (steady_world ok_response)
                           "/maps/api/geocode/json" (Some 0) 2
                           (fresh key_context []))
                    ltac:(lia))).
  - apply (proj1 (proj1 (proj2 (backoff_delay (steady_world ok_response)
                                  "/maps/api/geocode/json" None 0
                                  (fresh key_context [])))
                    eq_refl)).
Defined.

Lemma _get_returns_body_witness :
  snd (_get (steady_world ok_response) 1 "/maps/api/geocode/json" None 0
         (fresh key_context [("address", PStr "New York")]))
  = Some (Ok (Dict [("status", PStr "OK"); ("results", POther "[]")])).
Proof.
  apply (proj1 (@_get_returns_body (steady_world ok_response) 0
           "/maps/api/geocode/json" None 0
           (fresh key_context [("address", PStr "New York")])
           ok_response
           [("status", PStr "OK"); ("results", POther "[]")] (PStr "OK")
           (steady_world_answers ok_response key_context
              [("address", PStr "New York")] "/maps/api/geocode/json"
              (ex_intro _ _ eq_refl))
           eq_refl eq_refl eq_refl (or_introl eq_refl))).
Defined.

Lemma _get_raises_ApiError_witness :
  exists e,
    snd (_get (steady_world invalid_request_response) 1
           "/maps/api/geocode/json" None 0
           (fresh key_context [("address", PStr "New York")]))
    = Some (Raise (RaisedApiError e))
    /\ status e = PStr "INVALID_REQUEST"
    /\ message e = PStr "bad param".
Proof.
  apply (proj1 (@_get_raises_ApiError (steady_world invalid_request_response) 0
           "/maps/api/geocode/json" None 0
           (fresh key_context [("address", PStr "New York")])
           invalid_request_response
           [("status", PStr "INVALID_REQUEST"); ("error_message", PStr "bad param")]
           (PStr "INVALID_REQUEST")
           (steady_world_answers invalid_request_response key_context
              [("address", PStr "New York")] "/maps/api/geocode/json"
              (ex_intro _ _ eq_refl))
           eq_refl eq_refl eq_refl
           ltac:(discriminate) ltac:(discriminate) ltac:(discriminate))).
Defined.

(** The string forms of the specification's examples. *)
Example ApiError__str___examples :
  ApiError__str__ (ApiError__init__ (PStr "INVALID_REQUEST") None)
  = PStr "INVALID_REQUEST"
  /\ ApiError__str__ (ApiError__init__ (PStr "INVALID_REQUEST") (Some (PStr "bad param")))
     = PStr "INVALID_REQUEST (bad param)".
Proof. split; reflexivity. Qed.

(** ** When [_get] calls itself *)

(** The body calls [_get] again exactly when the retry budget is not
    exceeded and either the status is 500, 503 or 504, or the status is of
    no error class (200, but also any other status below 400 or from 600
    on, for which [raise_for_status] returns) and the body's status is
    "OVER_QUERY_LIMIT"; the call passes the same time of the first request
    and the next [retry_counter]. *)
Lemma classify_recurse_iff (resp : Response) (exceeded : bool)
    (t rc t' rc' : Z) :
  classify resp exceeded t rc = Ok (Recurse t' rc') <->
  t' = t /\ rc' = rc + 1 /\ exceeded = false
  /\ (In (status_code resp) [500; 503; 504]
      \/ ((status_code resp = 200 \/ ~ 400 <= status_code resp < 600)
          /\ exists d, body_content resp = JSONObject d
                       /\ dict_get "status" d = Some (PStr "OVER_QUERY_LIMIT"))).
Proof.
  split.
  - unfold classify.
    destruct (existsb (Z.eqb (status_code resp)) [500; 503; 504]) eqn:Ex;
      destruct exceeded; cbn [andb negb].
    2:{ intros H. injection H as <- <-. repeat split; auto. left.
        apply existsb_exists in Ex. destruct Ex as (x & Hin & Hx).
        apply Z.eqb_eq in Hx. now subst x. }
    all: intros H;
      assert (Hsc : status_code resp = 200 \/ ~ 400 <= status_code resp < 600)
        by (destruct (Z.eqb_spec (status_code resp) 200); [now left|];
            unfold raise_for_status in H; cbn [negb] in H;
            destruct (Z.leb_spec 400 (status_code resp));
            destruct (Z.ltb_spec (status_code resp) 600);
            cbn [andb bind] in H; try discriminate; right; lia);
      assert (Hrs : (if negb (status_code resp =? 200)
                     then raise_for_status resp else Ok tt) = Ok tt)
        by (destruct (negb (status_code resp =? 200)); [|reflexivity];
            destruct (raise_for_status resp) as [[]|]; [reflexivity|discriminate]);
      rewrite Hrs in H; cbn [bind] in H; unfold json in H;
      destruct (body_content resp) as [|d|] eqn:Hb; cbn [bind subscript] in H;
        try discriminate;
      destruct (dict_get "status" d) as [v|] eqn:Hv; cbn [bind] in H;
        try discriminate;
      destruct (eq_str v "OK" || eq_str v "ZERO_RESULTS"); try discriminate;
      destruct (eq_str v "OVER_QUERY_LIMIT") eqn:Hq; cbn [andb negb] in H;
      try (cbn [contains bind] in H; destruct (dict_mem "error_message" d);
           [destruct (dict_get "error_message" d)|]; discriminate).
    all: injection H as <- <-; apply eq_str_true in Hq; subst v;
      repeat split; auto; right; split; [exact Hsc | eauto].
  - intros (-> & -> & -> & [Hin | (Hsc & d & Hb & Hv)]).
    + now apply classify_server_error_retry.
    + rewrite (classify_body _ _ _ _ d _ Hsc Hb Hv). reflexivity.
Qed.

(** A run that ends in [Recurse] continues as [_get] on the arguments of the
    call: the time of the first request is handed on as it is. *)
Lemma _get_recurse (w : World) (fuel : nat) (url : string)
    (first_request_time : option Z) (retry_counter : Z) (s : State)
    (req : Request) (resp : Response) :
  request_of s url = Some req ->
  requests_get w (List.length (sent s)) req = Ok resp ->
  classify resp (exceeded_timeout w s first_request_time)
    (first_time w s first_request_time) retry_counter
  = Ok (Recurse (first_time w s first_request_time) (retry_counter + 1)) ->
  _get w (S fuel) url first_request_time retry_counter s
  = _get w fuel url (Some (first_time w s first_request_time)) (retry_counter + 1)
      (after_response w s url first_request_time retry_counter req)
  /\ first_time w (after_response w s url first_request_time retry_counter req)
       (Some (first_time w s first_request_time))
     = first_time w s first_request_time.
Proof.
  intros Hreq Hget Hc. split; [|reflexivity].
  cbn [_get]. rewrite (attempt_answered w s url _ _ req resp Hreq Hget).
  rewrite Hc. reflexivity.
Qed.

(** Once the budget is exceeded, the retryable outcomes surface: the
    transport error of the status, or the ApiError of the quota status. *)
Lemma classify_budget_exceeded (resp : Response) (t rc : Z) :
  (In (status_code resp) [500; 503; 504] ->
   classify resp true t rc = Raise (HTTPError (status_code resp)))
  /\ (forall d, status_code resp = 200 -> body_content resp = JSONObject d ->
      dict_get "status" d = Some (PStr "OVER_QUERY_LIMIT") ->
      classify resp true t rc
      = Raise (RaisedApiError
                 (ApiError__init__ (PStr "OVER_QUERY_LIMIT")
                    (dict_get "error_message" d)))).
Proof.
  split.
  - intros Hin. apply classify_error_status; [|now right].
    simpl in Hin. lia.
  - intros d Hsc Hb Hv.
    rewrite (classify_body _ _ _ _ d _ (or_introl Hsc) Hb Hv). reflexivity.
Qed.

(** C1, at the input where the code departs from it: the response has HTTP
    status 203, neither 500, 503, 504 nor 200, and its body has status
    "OVER_QUERY_LIMIT".  Within the budget the run does not surface a
    failure: it calls [_get] again with retry_counter + 1, and three levels
    of the recursion have sent three requests and need more. *)
Theorem _get_retries_status_203 :
  snd (attempt (steady_world proxied_quota_response) "/maps/api/geocode/json"
         None 0 (fresh key_context [("address", PStr "New York")]))
  = Ok (Recurse 0 1)
  /\ snd (_get (steady_world proxied_quota_response) 3 "/maps/api/geocode/json"
            None 0 (fresh key_context [("address", PStr "New York")]))
     = None
  /\ List.length
       (sent (fst (_get (steady_world proxied_quota_response) 3
                     "/maps/api/geocode/json" None 0
                     (fresh key_context [("address", PStr "New York")]))))
     = 3%nat.
Proof. repeat split; vm_compute; reflexivity. Qed.

(** * Further properties of the module *)

(** ** The outcomes of [Context.__init__] *)

(** The first chunk of a version string always exists. *)
Lemma index_split_0 (v : string) : exists c0, index (split "." v) 0 = Ok c0.
Proof.
  unfold index. destruct v as [|a s]; simpl; [eauto|].
  destruct (Ascii.eqb a "."); simpl; [eauto|].
  destruct (split "." s); simpl; eauto.
Qed.

Ltac init_cases v k cid sec t ct rt :=
  unfold Context__init__, credentials_ok;
  let c0 := fresh "c0" in
  let Hc0 := fresh "Hc0" in
  destruct (index_split_0 v) as [c0 Hc0]; rewrite Hc0;
  destruct (truthy k); destruct (startswith k "AIza");
  destruct (truthy sec); destruct (truthy cid);
  destruct (truthy t); destruct (truthy ct); destruct (truthy rt);
  cbn [negb andb orb bind str_lt_int].


(** X2: a connect_timeout or read_timeout given alone is dropped.  When one
    of them is given and construction succeeds, the Context's timeout is the
    single timeout, which is None or 0: requests run without a timeout. *)
Theorem Context__init___lone_timeout_dropped
    (v : string) (k cid sec : option string) (t ct rt : option Z) (r : Z)
    (c : Context) :
  Context__init__ v k cid sec t ct rt r = Ok c ->
  truthy ct || truthy rt = true ->
  timeout c = Single t /\ truthy t = false.
Proof.
  revert c. init_cases v k cid sec t ct rt;
    intros c H Hp; try discriminate; injection H as <-; split; reflexivity.
Qed.

Lemma Context__init___lone_timeout_dropped_witness :
  timeout (mkContext (Some "AIzaSyExampleKey") (Single None) None None
             (timedelta_seconds 60))
  = Single None
  /\ truthy (@None Z) = false.
Proof.
  apply (Context__init___lone_timeout_dropped requests_2_4_0
           (Some "AIzaSyExampleKey") None None None (Some 5) None 60
           (mkContext (Some "AIzaSyExampleKey") (Single None) None None
              (timedelta_seconds 60))
           eq_refl eq_refl).
Defined.

(** ** Base64 and the signature *)

Lemma below_In (n : nat) (x : Z) : 0 <= x < Z.of_nat n -> In x (below n).
Proof.
  intros H. unfold below. rewrite <- (Z2Nat.id x) by lia.
  apply in_map. apply in_seq. lia.
Qed.

Lemma below_forall (n : nat) (P : Z -> bool) :
  forallb P (below n) = true -> forall x, 0 <= x < Z.of_nat n -> P x = true.
Proof.
  intros H x Hx. rewrite forallb_forall in H. apply H. now apply below_In.
Qed.

Lemma below_forall2 (n m : nat) (P : Z -> Z -> bool) :
  forallb (fun x => forallb (P x) (below m)) (below n) = true ->
  forall x y, 0 <= x < Z.of_nat n -> 0 <= y < Z.of_nat m -> P x y = true.
Proof.
  intros H x y Hx Hy.
  apply (below_forall m (P x)); [|exact Hy].
  now apply (below_forall n (fun x => forallb (P x) (below m))).
Qed.

(** A digit is no padding, is ASCII, is URL-safe, and has its index as
    value. *)
Lemma digit_spec (n : Z) :
  0 <= n < 64 ->
  Ascii.eqb (base64.translate (base64.digit n)) "=" = false
  /\ base64.value (base64.translate (base64.digit n)) = Some n
  /\ (ord (base64.digit n) <? 128) = true
  /\ urlsafe_char (base64.digit n) = true.
Proof.
  intros H.
  pose proof (below_forall 64
    (fun n =>
       negb (Ascii.eqb (base64.translate (base64.digit n)) "=")
       && match base64.value (base64.translate (base64.digit n)) with
          | Some v => v =? n
          | None => false
          end
       && (ord (base64.digit n) <? 128)
       && urlsafe_char (base64.digit n))
    ltac:(vm_compute; reflexivity) n H) as E.
  cbv beta in E.
  apply andb_prop in E. destruct E as [E E4].
  apply andb_prop in E. destruct E as [E E3].
  apply andb_prop in E. destruct E as [E1 E2].
  apply negb_true_iff in E1.
  destruct (base64.value (base64.translate (base64.digit n))) as [v|];
    [|discriminate].
  apply Z.eqb_eq in E2. subst v. auto.
Qed.

Ltac split_bools E :=
  repeat (apply andb_prop in E; let E' := fresh "E" in destruct E as [E E']);
  repeat match goal with
         | H : (_ <=? _) = true |- _ => apply Z.leb_le in H
         | H : (_ <? _) = true |- _ => apply Z.ltb_lt in H
         | H : (_ =? _) = true |- _ => apply Z.eqb_eq in H
         end.

(** The bits of one byte: the indices taken from it are below 64 and the
    byte is the join of its parts. *)
Lemma byte_bits (x : Z) :
  0 <= x < 256 ->
  0 <= Z.shiftr x 2 < 64
  /\ 0 <= Z.land x 63 < 64
  /\ 0 <= Z.shiftl (Z.land x 3) 4 < 64
  /\ 0 <= Z.shiftl (Z.land x 15) 2 < 64
  /\ Z.lor (Z.shiftl (Z.shiftr x 2) 2) (Z.shiftr (Z.shiftl (Z.land x 3) 4) 4) = x
  /\ Z.shiftr (Z.shiftl (Z.land x 15) 2) 2 = Z.land x 15
  /\ Z.lor (Z.shiftl (Z.shiftr x 4) 4) (Z.land x 15) = x
  /\ Z.lor (Z.shiftl (Z.shiftr x 6) 6) (Z.land x 63) = x.
Proof.
  intros Hx.
  pose proof (below_forall 256
    (fun x =>
       (0 <=? Z.shiftr x 2) && (Z.shiftr x 2 <? 64)
       && (0 <=? Z.land x 63) && (Z.land x 63 <? 64)
       && (0 <=? Z.shiftl (Z.land x 3) 4) && (Z.shiftl (Z.land x 3) 4 <? 64)
       && (0 <=? Z.shiftl (Z.land x 15) 2) && (Z.shiftl (Z.land x 15) 2 <? 64)
       && (Z.lor (Z.shiftl (Z.shiftr x 2) 2)
                 (Z.shiftr (Z.shiftl (Z.land x 3) 4) 4) =? x)
       && (Z.shiftr (Z.shiftl (Z.land x 15) 2) 2 =? Z.land x 15)
       && (Z.lor (Z.shiftl (Z.shiftr x 4) 4) (Z.land x 15) =? x)
       && (Z.lor (Z.shiftl (Z.shiftr x 6) 6) (Z.land x 63) =? x))
    ltac:(vm_compute; reflexivity) x Hx) as E.
  cbv beta in E. split_bools E. repeat split; assumption.
Qed.

(** The bits of two consecutive bytes: the index that straddles them is
    below 64 and yields the parts of both. *)
Lemma pair_bits (x y : Z) :
  0 <= x < 256 -> 0 <= y < 256 ->
  0 <= Z.lor (Z.shiftl (Z.land x 3) 4) (Z.shiftr y 4) < 64
  /\ Z.land (Z.lor (Z.shiftl (Z.land x 3) 4) (Z.shiftr y 4)) 15 = Z.shiftr y 4
  /\ Z.lor (Z.shiftl (Z.shiftr x 2) 2)
           (Z.shiftr (Z.lor (Z.shiftl (Z.land x 3) 4) (Z.shiftr y 4)) 4) = x
  /\ 0 <= Z.lor (Z.shiftl (Z.land x 15) 2) (Z.shiftr y 6) < 64
  /\ Z.shiftr (Z.lor (Z.shiftl (Z.land x 15) 2) (Z.shiftr y 6)) 2 = Z.land x 15
  /\ Z.land (Z.lor (Z.shiftl (Z.land x 15) 2) (Z.shiftr y 6)) 3 = Z.shiftr y 6.
Proof.
  intros Hx Hy.
  pose proof (below_forall2 256 256
    (fun x y =>
       let i1 := Z.lor (Z.shiftl (Z.land x 3) 4) (Z.shiftr y 4) in
       let i2 := Z.lor (Z.shiftl (Z.land x 15) 2) (Z.shiftr y 6) in
       (0 <=? i1) && (i1 <? 64)
       && (Z.land i1 15 =? Z.shiftr y 4)
       && (Z.lor (Z.shiftl (Z.shiftr x 2) 2) (Z.shiftr i1 4) =? x)
       && (0 <=? i2) && (i2 <? 64)
       && (Z.shiftr i2 2 =? Z.land x 15)
       && (Z.land i2 3 =? Z.shiftr y 6))
    ltac:(vm_compute; reflexivity) x y Hx Hy) as E.
  cbv beta zeta in E. split_bools E. repeat split; assumption.
Qed.

(** One step of [a2b_base64] on a digit, by position in the group, and
    the steps on the padding. *)
Lemma a2b_digit (n : Z) (cs : list ascii) (l p : Z) (out : bytes) :
  0 <= n < 64 ->
  base64.a2b_base64 (base64.translate (base64.digit n) :: cs) 0 l p out
  = base64.a2b_base64 cs 1 n 0 out
  /\ base64.a2b_base64 (base64.translate (base64.digit n) :: cs) 1 l p out
     = base64.a2b_base64 cs 2 (Z.land n 15) 0
         (out ++ [Z.lor (Z.shiftl l 2) (Z.shiftr n 4)])%list
  /\ base64.a2b_base64 (base64.translate (base64.digit n) :: cs) 2 l p out
     = base64.a2b_base64 cs 3 (Z.land n 3) 0
         (out ++ [Z.lor (Z.shiftl l 4) (Z.shiftr n 2)])%list
  /\ base64.a2b_base64 (base64.translate (base64.digit n) :: cs) 3 l p out
     = base64.a2b_base64 cs 0 0 0 (out ++ [Z.lor (Z.shiftl l 6) n])%list.
Proof.
  intros H. destruct (digit_spec n H) as (E1 & E2 & _).
  cbn [base64.a2b_base64]. rewrite E1, E2. repeat split; reflexivity.
Qed.

Lemma a2b_padding (l : Z) (out : bytes) :
  base64.a2b_base64 [base64.translate "="; base64.translate "="] 2 l 0 out = Ok out
  /\ base64.a2b_base64 [base64.translate "="] 3 l 0 out = Ok out.
Proof. split; reflexivity. Qed.

Lemma list_ind3 (A : Type) (P : list A -> Prop) :
  P [] -> (forall x, P [x]) -> (forall x y, P [x; y]) ->
  (forall x y z l, P l -> P (x :: y :: z :: l)) ->
  forall l, P l.
Proof.
  intros H0 H1 H2 H3.
  assert (H : forall l, P l /\ (forall x, P (x :: l)) /\ (forall x y, P (x :: y :: l))).
  { induction l as [|a l (IH0 & IH1 & IH2)]; [now auto|].
    split; [apply IH1|]. split; [intros x; apply IH2|]. intros x y. now apply H3. }
  intros l. apply H.
Qed.

(** Decoding the base64 text of bytes gives the bytes back. *)
Lemma a2b_base64_encode (b : bytes) :
  bytes_ok b ->
  forall out,
    base64.a2b_base64 (map base64.translate (base64.encode b)) 0 0 0 out
    = Ok (out ++ b)%list.
Proof.
  induction b as [|x|x y|x y z b IH] using list_ind3; intros Hb out.
  - cbn. now rewrite app_nil_r.
  - inversion Hb as [|? ? Hx _]; subst.
    destruct (byte_bits x Hx) as (R0 & _ & R1 & _ & J & _).
    cbn [base64.encode map].
    rewrite (proj1 (a2b_digit _ _ _ _ _ R0)).
    rewrite (proj1 (proj2 (a2b_digit _ _ _ _ _ R1))).
    rewrite (proj1 (a2b_padding _ _)). now rewrite J.
  - inversion Hb as [|? ? Hx Hb']; subst. inversion Hb' as [|? ? Hy _]; subst.
    destruct (byte_bits x Hx) as (R0 & _).
    destruct (byte_bits y Hy) as (_ & _ & _ & R2 & _ & S2 & Jy & _).
    destruct (pair_bits x y Hx Hy) as (R1 & L1 & Jx & _).
    cbn [base64.encode map].
    rewrite (proj1 (a2b_digit _ _ _ _ _ R0)).
    rewrite (proj1 (proj2 (a2b_digit _ _ _ _ _ R1))).
    rewrite (proj1 (proj2 (proj2 (a2b_digit _ _ _ _ _ R2)))).
    rewrite (proj2 (a2b_padding _ _)).
    rewrite Jx, L1, S2, Jy. now rewrite <- app_assoc.
  - inversion Hb as [|? ? Hx Hb']; subst. inversion Hb' as [|? ? Hy Hb'']; subst.
    inversion Hb'' as [|? ? Hz Hb3]; subst.
    destruct (byte_bits x Hx) as (R0 & _).
    destruct (byte_bits y Hy) as (_ & _ & _ & _ & _ & _ & Jy & _).
    destruct (byte_bits z Hz) as (_ & R3 & _ & _ & _ & _ & _ & Jz).
    destruct (pair_bits x y Hx Hy) as (R1 & L1 & Jx & _).
    destruct (pair_bits y z Hy Hz) as (_ & _ & _ & R2 & S2 & L2).
    cbn [base64.encode map].
    rewrite (proj1 (a2b_digit _ _ _ _ _ R0)).
    rewrite (proj1 (proj2 (a2b_digit _ _ _ _ _ R1))).
    rewrite (proj1 (proj2 (proj2 (a2b_digit _ _ _ _ _ R2)))).
    rewrite (proj2 (proj2 (proj2 (a2b_digit _ _ _ _ _ R3)))).
    rewrite Jx, L1, S2, Jy, L2, Jz.
    rewrite IH by assumption. now rewrite <- !app_assoc.
Qed.

Lemma chr_ord (c : ascii) : chr (ord c) = c.
Proof. unfold chr, ord. rewrite N2Z.id. apply ascii_N_embedding. Qed.

Lemma text_of_encode (b : bytes) :
  list_ascii_of_string (decode_utf8 (base64.urlsafe_b64encode b)) = base64.encode b.
Proof.
  unfold decode_utf8, base64.urlsafe_b64encode.
  rewrite list_ascii_of_string_of_list_ascii, map_map.
  rewrite <- (map_id (base64.encode b)) at 2.
  apply map_ext. intros c. apply chr_ord.
Qed.

(** The characters of the base64 text of bytes: ASCII, and URL-safe. *)
Lemma encode_chars (b : bytes) :
  bytes_ok b ->
  forallb (fun c => ord c <? 128) (base64.encode b) = true
  /\ forallb urlsafe_char (base64.encode b) = true.
Proof.
  induction b as [|x|x y|x y z b IH] using list_ind3; intros Hb.
  - split; reflexivity.
  - inversion Hb as [|? ? Hx _]; subst.
    destruct (byte_bits x Hx) as (R0 & _ & R1 & _).
    destruct (digit_spec _ R0) as (_ & _ & A0 & U0).
    destruct (digit_spec _ R1) as (_ & _ & A1 & U1).
    cbn [base64.encode forallb]. rewrite A0, A1, U0, U1. split; reflexivity.
  - inversion Hb as [|? ? Hx Hb']; subst. inversion Hb' as [|? ? Hy _]; subst.
    destruct (byte_bits x Hx) as (R0 & _).
    destruct (byte_bits y Hy) as (_ & _ & _ & R2 & _).
    destruct (pair_bits x y Hx Hy) as (R1 & _).
    destruct (digit_spec _ R0) as (_ & _ & A0 & U0).
    destruct (digit_spec _ R1) as (_ & _ & A1 & U1).
    destruct (digit_spec _ R2) as (_ & _ & A2 & U2).
    cbn [base64.encode forallb]. rewrite A0, A1, A2, U0, U1, U2.
    split; reflexivity.
  - inversion Hb as [|? ? Hx Hb']; subst. inversion Hb' as [|? ? Hy Hb'']; subst.
    inversion Hb'' as [|? ? Hz Hb3]; subst.
    destruct (byte_bits x Hx) as (R0 & _).
    destruct (byte_bits z Hz) as (_ & R3 & _).
    destruct (pair_bits x y Hx Hy) as (R1 & _).
    destruct (pair_bits y z Hy Hz) as (_ & _ & _ & R2 & _).
    destruct (digit_spec _ R0) as (_ & _ & A0 & U0).
    destruct (digit_spec _ R1) as (_ & _ & A1 & U1).
    destruct (digit_spec _ R2) as (_ & _ & A2 & U2).
    destruct (digit_spec _ R3) as (_ & _ & A3 & U3).
    destruct (IH Hb3) as (IHa & IHu).
    cbn [base64.encode forallb].
    rewrite A0, A1, A2, A3, U0, U1, U2, U3, IHa, IHu. split; reflexivity.
Qed.

(** Round trip: the base64url text of bytes decodes to the bytes. *)
Lemma urlsafe_b64decode_encode (b : bytes) :
  bytes_ok b ->
  base64.urlsafe_b64decode (decode_utf8 (base64.urlsafe_b64encode b)) = Ok b.
Proof.
  intros Hb. unfold base64.urlsafe_b64decode. rewrite text_of_encode.
  rewrite (proj1 (encode_chars b Hb)).
  now rewrite (a2b_base64_encode b Hb []).
Qed.

(** A SHA-1 digest is twenty bytes. *)
Lemma sha1_digest (m : bytes) :
  List.length (hashlib.sha1 m) = 20%nat /\ bytes_ok (hashlib.sha1 m).
Proof.
  unfold hashlib.sha1.
  destruct (hashlib.blocks _ _ _) as [[[[a b] c] d] e].
  split; [reflexivity|].
  unfold bytes_ok, hashlib.be32. cbn [app].
  repeat (apply Forall_cons; [apply Z.mod_pos_bound; lia|]).
  apply Forall_nil.
Qed.

Lemma encode_length_20 (b : bytes) :
  List.length b = 20%nat -> List.length (base64.encode b) = 28%nat.
Proof.
  intros H.
  do 21 (destruct b as [|? b]; [discriminate H || reflexivity|]).
  discriminate H.
Qed.

(** ** The signed URL *)

Lemma length_string_of_list_ascii (l : list ascii) :
  String.length (string_of_list_ascii l) = List.length l.
Proof. induction l as [|c l IH]; cbn; [reflexivity | now rewrite IH]. Qed.

(** X3: a client_secret in canonical form always signs.  For a Context in
    enterprise mode whose client_secret is the base64url text of some key
    bytes, [_auth_url] returns the signed URL, the signature being made
    with exactly those bytes: decoding undoes the encoding. *)
Theorem _auth_url_encoded_secret (self : Context) (path : string)
    (params0 : dict) (clientId : string) (secret_key : bytes) :
  api_key_mode self = false ->
  client_id self = Some clientId -> clientId <> "" ->
  client_secret self = Some (decode_utf8 (base64.urlsafe_b64encode secret_key)) ->
  secret_key <> [] -> bytes_ok secret_key ->
  let signedPath :=
    path ++ "?" ++ urllib.urlencode (dict_set "client" (PStr clientId) params0) in
  snd (_auth_url self path params0)
  = Ok (Some (signedPath ++ "&signature="
              ++ reference_signature secret_key signedPath)).
Proof.
  unfold api_key_mode. intros Hm Hc Hne Hs Hk Hb. cbv zeta.
  unfold _auth_url. rewrite Hm, Hc, Hs.
  assert (Et : truthy (Some clientId)
               && truthy (Some (decode_utf8 (base64.urlsafe_b64encode secret_key)))
               = true).
  { unfold truthy, Truthy_str.
    destruct (String.eqb_spec clientId ""); [contradiction|]. cbn [negb andb].
    unfold decode_utf8, base64.urlsafe_b64encode.
    destruct secret_key as [|x [|y [|z k']]]; [contradiction|reflexivity..]. }
  rewrite Et. cbn [pyval_of snd]. unfold _hmac_sign.
  rewrite (urlsafe_b64decode_encode secret_key Hb). reflexivity.
Qed.

Lemma _auth_url_encoded_secret_witness :
  snd (_auth_url
         (mkContext None (Single None) (Some "clientID")
            (Some (decode_utf8 (base64.urlsafe_b64encode [1; 2; 3; 4])))
            (timedelta_seconds 60))
         "/p" [])
  = Ok (Some (("/p" ++ "?" ++ urllib.urlencode (dict_set "client" (PStr "clientID") []))
              ++ "&signature="
              ++ reference_signature [1; 2; 3; 4]
                   ("/p" ++ "?"
                    ++ urllib.urlencode (dict_set "client" (PStr "clientID") [])))).
Proof.
  apply (_auth_url_encoded_secret
           (mkContext None (Single None) (Some "clientID")
              (Some (decode_utf8 (base64.urlsafe_b64encode [1; 2; 3; 4])))
              (timedelta_seconds 60))
           "/p" [] "clientID" [1; 2; 3; 4] eq_refl eq_refl).
  - discriminate.
  - reflexivity.
  - discriminate.
  - repeat constructor; lia.
Defined.

(** X4: the shape of a signature.  Whatever the secret and the string,
    when [_hmac_sign] returns, its result has 28 characters, all of the
    URL-safe base64 alphabet or the padding "=": it goes into the query
    string as it is. *)
Theorem _hmac_sign_shape (secret : option string) (s : string) (sig : string) :
  _hmac_sign secret s = Ok sig ->
  String.length sig = 28%nat
  /\ forallb urlsafe_char (list_ascii_of_string sig) = true.
Proof.
  unfold _hmac_sign. intros H.
  destruct (match secret with
            | Some secret0 => base64.urlsafe_b64decode secret0
            | None => Raise TypeError
            end) as [k|e]; cbn [bind] in H; [|discriminate].
  injection H as <-.
  destruct (sha1_digest
              (map (Z.lxor 92)
                 ((if 64 <? Z.of_nat (List.length k) then hashlib.sha1 k else k)
                  ++ repeat 0
                       (64 - List.length
                               (if 64 <? Z.of_nat (List.length k)
                                then hashlib.sha1 k else k)))
               ++ hashlib.sha1
                    (map (Z.lxor 54)
                       ((if 64 <? Z.of_nat (List.length k) then hashlib.sha1 k else k)
                        ++ repeat 0
                             (64 - List.length
                                     (if 64 <? Z.of_nat (List.length k)
                                      then hashlib.sha1 k else k)))
                     ++ encode_utf8 s))%list) as (Hl & Hb).
  change (hashlib.sha1 _) with (hmac.digest_sha1 k (encode_utf8 s)) in Hl, Hb.
  split.
  - unfold decode_utf8, base64.urlsafe_b64encode.
    rewrite length_string_of_list_ascii, !length_map.
    now apply encode_length_20.
  - rewrite text_of_encode. now apply encode_chars.
Qed.

Lemma _hmac_sign_shape_witness :
  String.length "chaRF2hTJKOScPr-RQCEhZbSzIE=" = 28%nat
  /\ forallb urlsafe_char (list_ascii_of_string "chaRF2hTJKOScPr-RQCEhZbSzIE=") = true.
Proof.
  apply (_hmac_sign_shape (Some "vNIXE0xscrmjlyV-12Nj_BvUPaw=")
           "/maps/api/geocode/json?address=New+York&client=clientID").
  vm_compute. reflexivity.
Defined.

(** ** Runs of [_get] with retries *)

(** A second call of [_auth_url] on the dict the first has written to does
    what the first did. *)
Lemma _auth_url_again (self : Context) (path : string) (params0 : dict) :
  _auth_url self path (snd (fst (_auth_url self path params0)))
  = _auth_url self path params0.
Proof.
  unfold _auth_url.
  destruct (truthy (key self)); cbn [fst snd].
  - now rewrite dict_set_idempotent.
  - destruct (truthy (client_id self) && truthy (client_secret self)); cbn [fst snd].
    + now rewrite dict_set_idempotent.
    + reflexivity.
Qed.

Lemma request_of_after_response (w : World) (s : State) (url : string)
    (frt : option Z) (rc : Z) (req : Request) :
  request_of (after_response w s url frt rc req) url = request_of s url.
Proof.
  unfold request_of, after_response. cbn [ctx params].
  now rewrite _auth_url_again.
Qed.

Lemma classify_retryable (resp : Response) (t rc : Z) :
  retryable resp = true ->
  classify resp false t rc = Ok (Recurse t (rc + 1)).
Proof.
  intros H. apply classify_recurse_iff. repeat split.
  unfold retryable in H. apply orb_prop in H. destruct H as [H|H].
  - left. apply existsb_exists in H. destruct H as (x & Hin & Hx).
    apply Z.eqb_eq in Hx. now subst x.
  - right. apply andb_prop in H. destruct H as [Hs Hb]. split.
    + apply orb_prop in Hs. destruct Hs as [Hs|Hs].
      * left. now apply Z.eqb_eq.
      * right. apply negb_true_iff in Hs. intros [H1 H2].
        apply Z.leb_le in H1. apply Z.ltb_lt in H2.
        rewrite H1, H2 in Hs. discriminate.
    + destruct (body_content resp) as [|d|]; try discriminate.
      exists d. split; [reflexivity|].
      destruct (dict_get "status" d) as [v|]; [|discriminate].
      apply eq_str_true in Hb. now subst.
Qed.

Lemma exceeded_within_budget (w : World) (s : State) (frt : option Z) :
  exceeded_timeout w s frt = negb (within_budget w s frt 0).
Proof.
  unfold exceeded_timeout, within_budget, finish_time, finish_index.
  rewrite negb_involutive. rewrite Nat.add_0_r. now destruct frt.
Qed.

(** A run whose request is answered by a retryable response within the
    budget continues as [_get] with the next [retry_counter]. *)
Lemma _get_retry_step (w : World) (fuel : nat) (url : string)
    (frt : option Z) (rc : Z) (s : State) (req : Request) (resp : Response) :
  request_of s url = Some req ->
  requests_get w (List.length (sent s)) req = Ok resp ->
  retryable resp = true ->
  within_budget w s frt 0 = true ->
  _get w (S fuel) url frt rc s
  = _get w fuel url (Some (first_time w s frt)) (rc + 1)
      (after_response w s url frt rc req).
Proof.
  intros Hreq Hget Hr Hb. cbn [_get].
  rewrite (attempt_answered w s url frt rc req resp Hreq Hget).
  rewrite exceeded_within_budget, Hb. cbn [negb].
  now rewrite (classify_retryable resp _ _ Hr).
Qed.

Lemma within_budget_after_response (w : World) (s : State) (url : string)
    (frt : option Z) (rc : Z) (req : Request) (i : nat) :
  within_budget w (after_response w s url frt rc req)
    (Some (first_time w s frt)) i
  = within_budget w s frt (S i).
Proof.
  unfold within_budget, finish_index, after_response, after_backoff.
  cbn [ctx clock_reads first_time].
  replace (S (match frt with
              | Some _ => clock_reads s
              | None => S (clock_reads s)
              end) + i)%nat
    with (match frt with
          | Some _ => clock_reads s
          | None => S (clock_reads s)
          end + S i)%nat by lia.
  reflexivity.
Qed.

(** [k] responses that are retryable and within the budget take [_get]
    through [k] levels of its recursion. *)
Lemma _get_chain (w : World) (fuel : nat) (url : string) (req : Request)
    (k : nat) :
  forall (frt : option Z) (rc : Z) (s : State),
    request_of s url = Some req ->
    (forall i, (i < k)%nat ->
       exists resp,
         requests_get w (List.length (sent s) + i) req = Ok resp
         /\ retryable resp = true
         /\ within_budget w s frt i = true) ->
    _get w (k + fuel) url frt rc s
    = _get w fuel url
        (match k with O => frt | S _ => Some (first_time w s frt) end)
        (rc + Z.of_nat k)
        (after_retries w url req k frt rc s).
Proof.
  induction k as [|k IH]; intros frt rc s Hreq H.
  - cbn [Nat.add after_retries Z.of_nat]. now rewrite Z.add_0_r.
  - destruct (H 0%nat ltac:(lia)) as (resp & Hget & Hr & Hb).
    rewrite Nat.add_0_r in Hget.
    cbn [Nat.add after_retries].
    rewrite (_get_retry_step w (k + fuel) url frt rc s req resp Hreq Hget Hr Hb).
    rewrite IH.
    + replace (rc + 1 + Z.of_nat k) with (rc + Z.of_nat (S k)) by lia.
      now destruct k.
    + now rewrite request_of_after_response.
    + intros i Hi. destruct (H (S i) ltac:(lia)) as (r & Hg & Hr' & Hb').
      exists r. split; [|split; [exact Hr'|]].
      * unfold after_response. cbn [sent List.length].
        now rewrite <- Nat.add_succ_comm in Hg.
      * now rewrite within_budget_after_response.
Qed.

Lemma repeat_snoc (A : Type) (x : A) (n : nat) (l : list A) :
  (repeat x n ++ x :: l)%list = (x :: repeat x n ++ l)%list.
Proof. induction n as [|n IH]; cbn; [reflexivity | now rewrite IH]. Qed.

(** The state those [k] levels leave. *)
Lemma after_retries_state (w : World) (url : string) (req : Request) (k : nat) :
  forall (frt : option Z) (rc : Z) (s : State),
    request_of s url = Some req ->
    let s' := after_retries w url req k frt rc s in
    ctx s' = ctx s
    /\ request_of s' url = Some req
    /\ sent s' = (repeat req k ++ sent s)%list
    /\ forall i,
         within_budget w s'
           (match k with O => frt | S _ => Some (first_time w s frt) end) i
         = within_budget w s frt (k + i).
Proof.
  induction k as [|k IH]; intros frt rc s Hreq; cbn zeta.
  - cbn [after_retries repeat app Nat.add]. auto.
  - cbn [after_retries].
    specialize (IH (Some (first_time w s frt)) (rc + 1)
                  (after_response w s url frt rc req)).
    rewrite request_of_after_response in IH. specialize (IH Hreq).
    cbn zeta in IH. destruct IH as (Hc & Hr & Hs & Hw).
    split; [exact Hc|]. split; [exact Hr|]. split.
    + rewrite Hs. unfold after_response. cbn [sent repeat app].
      apply repeat_snoc.
    + intros i.
      assert (E : within_budget w
                    (after_retries w url req k (Some (first_time w s frt))
                       (rc + 1) (after_response w s url frt rc req))
                    (Some (first_time w s frt)) i
                  = within_budget w (after_response w s url frt rc req)
                      (Some (first_time w s frt)) (k + i)).
      { rewrite <- Hw. now destruct k. }
      rewrite E, within_budget_after_response. reflexivity.
Qed.

Ltac run_body :=
  unfold attempt, bindM, ret, lift, now, random, sleep, get, ctx_timeout,
    ctx_retry_timeout;
  cbn beta iota delta [fst snd ctx params clock_reads draws slept sent];
  repeat (rewrite auth_url_run;
          cbn beta iota delta [fst snd ctx params clock_reads draws slept sent]).

(** A run whose signing gives no path sends nothing and raises. *)
Lemma attempt_unsigned (w : World) (url : string) (frt : option Z) (rc : Z)
    (s : State) :
  request_of s url = None ->
  sent (fst (attempt w url frt rc s)) = sent s
  /\ snd (attempt w url frt rc s)
     = match snd (_auth_url (ctx s) url (params s)) with
       | Raise e => Raise e
       | _ => Raise TypeError
       end.
Proof.
  unfold request_of. intros H.
  destruct frt as [t|]; destruct (0 <? rc) eqn:E; run_body; rewrite ?E;
    cbn beta iota delta [fst snd ctx params clock_reads draws slept sent];
    rewrite ?auth_url_run;
    cbn beta iota delta [fst snd ctx params clock_reads draws slept sent];
    destruct (snd (_auth_url (ctx s) url (params s))) as [[p|]|e];
    try discriminate; split; reflexivity.
Qed.

(** A run whose request fails in the network raises that failure. *)
Lemma attempt_unanswered (w : World) (url : string) (frt : option Z) (rc : Z)
    (s : State) (req : Request) (e : exn) :
  request_of s url = Some req ->
  requests_get w (List.length (sent s)) req = Raise e ->
  sent (fst (attempt w url frt rc s)) = req :: sent s
  /\ snd (attempt w url frt rc s) = Raise e.
Proof.
  unfold request_of. intros Hreq Hget.
  destruct (snd (_auth_url (ctx s) url (params s))) as [[p|]|e'] eqn:Hs;
    try discriminate.
  apply (f_equal (fun o => match o with Some r => r | None => req end)) in Hreq.
  cbv beta iota in Hreq. subst req.
  destruct frt as [t|]; destruct (0 <? rc) eqn:E; run_body; rewrite ?E;
    cbn beta iota delta [fst snd ctx params clock_reads draws slept sent];
    rewrite ?auth_url_run;
    cbn beta iota delta [fst snd ctx params clock_reads draws slept sent];
    rewrite Hs;
    cbn beta iota delta [fst snd ctx params clock_reads draws slept sent];
    rewrite Hget; split; reflexivity.
Qed.

Lemma attempt_sent (w : World) (url : string) (frt : option Z) (rc : Z)
    (s : State) :
  sent (fst (attempt w url frt rc s))
  = match request_of s url with
    | Some req => req :: sent s
    | None => sent s
    end.
Proof.
  destruct (request_of s url) as [req|] eqn:Hreq.
  - destruct (requests_get w (List.length (sent s)) req) as [resp|e] eqn:Hget.
    + now rewrite (attempt_answered w s url frt rc req resp Hreq Hget).
    + now apply (attempt_unanswered w url frt rc s req e).
  - now apply attempt_unsigned.
Qed.

Lemma request_of_after_attempt (w : World) (url : string) (frt : option Z)
    (rc : Z) (s : State) :
  request_of (fst (attempt w url frt rc s)) url = request_of s url.
Proof.
  destruct (attempt_effects w s url frt rc) as (_ & _ & Hc & Hp).
  unfold request_of. rewrite Hc, Hp. now rewrite _auth_url_again.
Qed.

(** X5: when signing raises (a client_secret that does not decode),
    [_get] raises that error and no request is sent. *)
Theorem _get_signing_error (w : World) (fuel : nat) (url : string)
    (frt : option Z) (rc : Z) (s : State) (e : exn) :
  snd (_auth_url (ctx s) url (params s)) = Raise e ->
  snd (_get w (S fuel) url frt rc s) = Some (Raise e)
  /\ sent (fst (_get w (S fuel) url frt rc s)) = sent s.
Proof.
  intros H.
  assert (Hreq : request_of s url = None) by (unfold request_of; now rewrite H).
  destruct (attempt_unsigned w url frt rc s Hreq) as (Hs & Hr).
  rewrite H in Hr. cbn [_get].
  destruct (attempt w url frt rc s) as [s' r]. cbn [fst snd] in *.
  subst r. split; [reflexivity | exact Hs].
Qed.

Lemma _get_signing_error_witness :
  snd (_get (steady_world ok_response) 1 "/maps/api/geocode/json" None 0
         (fresh (mkContext None (Single None) (Some "clientID") (Some "A")
                   (timedelta_seconds 60)) []))
  = Some (Raise BinasciiError)
  /\ sent (fst (_get (steady_world ok_response) 1 "/maps/api/geocode/json" None 0
                  (fresh (mkContext None (Single None) (Some "clientID") (Some "A")
                            (timedelta_seconds 60)) [])))
     = [].
Proof.
  apply (_get_signing_error (steady_world ok_response) 0
           "/maps/api/geocode/json" None 0
           (fresh (mkContext None (Single None) (Some "clientID") (Some "A")
                     (timedelta_seconds 60)) [])
           BinasciiError eq_refl).
Defined.

(** X6: when [requests.get] raises (the network fails), [_get] raises that
    failure after this one request: failures of the network are not
    retried, whatever is left of the budget. *)
Theorem _get_network_error (w : World) (fuel : nat) (url : string)
    (frt : option Z) (rc : Z) (s : State) (req : Request) (e : exn) :
  request_of s url = Some req ->
  requests_get w (List.length (sent s)) req = Raise e ->
  snd (_get w (S fuel) url frt rc s) = Some (Raise e)
  /\ sent (fst (_get w (S fuel) url frt rc s)) = req :: sent s.
Proof.
  intros Hreq Hget.
  destruct (attempt_unanswered w url frt rc s req e Hreq Hget) as (Hs & Hr).
  cbn [_get]. destruct (attempt w url frt rc s) as [s' r]. cbn [fst snd] in *.
  subst r. split; [reflexivity | exact Hs].
Qed.

Lemma _get_network_error_witness :
  snd (_get offline_world 5 "/maps/api/geocode/json" None 0 (fresh key_context []))
  = Some (Raise ConnectionError)
  /\ sent (fst (_get offline_world 5 "/maps/api/geocode/json" None 0
                  (fresh key_context [])))
     = [mkRequest
          "https://maps.googleapis.com/maps/api/geocode/json?key=AIzaSyExampleKey"
          _USER_AGENT (Single None) true].
Proof.
  apply (_get_network_error offline_world 4 "/maps/api/geocode/json" None 0
           (fresh key_context [])
           (mkRequest
              "https://maps.googleapis.com/maps/api/geocode/json?key=AIzaSyExampleKey"
              _USER_AGENT (Single None) true)
           ConnectionError eq_refl eq_refl).
Defined.

(** X7: an HTTP 200 response whose body is not as the API promises makes
    [_get] raise, after this one request, the error of the step that fails:
    the decoding error for a body that is no JSON, [TypeError] for a JSON
    document that is no object, [KeyError] for an object without
    "status". *)
Theorem _get_malformed_body (w : World) (fuel : nat) (url : string)
    (frt : option Z) (rc : Z) (s : State) (resp : Response) :
  answered w s url resp ->
  status_code resp = 200 ->
  (body_content resp = NotJSON ->
   snd (_get w (S fuel) url frt rc s) = Some (Raise JSONDecodeError)
   /\ List.length (sent (fst (_get w (S fuel) url frt rc s)))
      = S (List.length (sent s)))
  /\ (body_content resp = JSONOther ->
      snd (_get w (S fuel) url frt rc s) = Some (Raise TypeError)
      /\ List.length (sent (fst (_get w (S fuel) url frt rc s)))
         = S (List.length (sent s)))
  /\ (forall d, body_content resp = JSONObject d -> dict_get "status" d = None ->
      snd (_get w (S fuel) url frt rc s) = Some (Raise (KeyError "status"))
      /\ List.length (sent (fst (_get w (S fuel) url frt rc s)))
         = S (List.length (sent s))).
Proof.
  intros (req & Hreq & Hget) Hcode. cbn [_get].
  rewrite (attempt_answered w s url frt rc req resp Hreq Hget).
  unfold classify, json. rewrite Hcode.
  cbn [existsb Z.eqb Pos.eqb orb andb negb bind].
  split; [|split].
  - intros Hb. rewrite Hb. split; reflexivity.
  - intros Hb. rewrite Hb. split; reflexivity.
  - intros d Hb Hd. rewrite Hb. cbn [bind subscript]. rewrite Hd.
    split; reflexivity.
Qed.

Lemma _get_malformed_body_witness :
  snd (_get (steady_world (mkResponse 200 NotJSON)) 1 "/maps/api/geocode/json"
         None 0 (fresh key_context []))
  = Some (Raise JSONDecodeError)
  /\ List.length
       (sent (fst (_get (steady_world (mkResponse 200 NotJSON)) 1
                     "/maps/api/geocode/json" None 0 (fresh key_context []))))
     = 1%nat.
Proof.
  apply (proj1 (_get_malformed_body (steady_world (mkResponse 200 NotJSON)) 0
                  "/maps/api/geocode/json" None 0 (fresh key_context [])
                  (mkResponse 200 NotJSON)
                  (steady_world_answers (mkResponse 200 NotJSON) key_context []
                     "/maps/api/geocode/json" (ex_intro _ _ eq_refl))
                  eq_refl)
           eq_refl).
Defined.

(** X8: a status of the client or server error classes that is not retried
    (any but 500, 503 and 504, or any once the budget is exceeded) makes
    [_get] raise the HTTP error of that status after this one request,
    whatever the body says. *)
Theorem _get_error_status (w : World) (fuel : nat) (url : string)
    (frt : option Z) (rc : Z) (s : State) (resp : Response) :
  answered w s url resp ->
  400 <= status_code resp < 600 ->
  ~ In (status_code resp) [500; 503; 504] \/ exceeded_timeout w s frt = true ->
  snd (_get w (S fuel) url frt rc s) = Some (Raise (HTTPError (status_code resp)))
  /\ List.length (sent (fst (_get w (S fuel) url frt rc s)))
     = S (List.length (sent s)).
Proof.
  intros (req & Hreq & Hget) Hsc Hn. cbn [_get].
  rewrite (attempt_answered w s url frt rc req resp Hreq Hget).
  rewrite (classify_error_status resp _ _ _ Hsc Hn). split; reflexivity.
Qed.

Lemma _get_error_status_witness :
  snd (_get (steady_world (mkResponse 403 (JSONObject [("status", PStr "OK")]))) 1
         "/maps/api/geocode/json" None 0 (fresh key_context []))
  = Some (Raise (HTTPError 403))
  /\ List.length
       (sent (fst (_get (steady_world
                           (mkResponse 403 (JSONObject [("status", PStr "OK")]))) 1
                     "/maps/api/geocode/json" None 0 (fresh key_context []))))
     = 1%nat.
Proof.
  apply (_get_error_status
           (steady_world (mkResponse 403 (JSONObject [("status", PStr "OK")]))) 0
           "/maps/api/geocode/json" None 0 (fresh key_context [])
           (mkResponse 403 (JSONObject [("status", PStr "OK")]))).
  - apply steady_world_answers. eexists. reflexivity.
  - cbn. lia.
  - left. cbn. intros [H|[H|[H|[]]]]; discriminate H.
Defined.

Lemma retryable_recurse (resp : Response) (exceeded : bool) (t rc t' rc' : Z) :
  classify resp exceeded t rc = Ok (Recurse t' rc') -> retryable resp = true.
Proof.
  intros H. apply classify_recurse_iff in H.
  destruct H as (_ & _ & _ & [Hin | (Hsc & d & Hb & Hd)]); unfold retryable.
  - apply orb_true_intro. left. apply existsb_exists.
    exists (status_code resp). split; [exact Hin | apply Z.eqb_refl].
  - apply orb_true_intro. right. rewrite Hb, Hd. cbn [eq_str pyval_eqb].
    rewrite String.eqb_refl, andb_true_r.
    destruct Hsc as [-> | Hn]; [reflexivity|].
    apply orb_true_intro. right. apply negb_true_iff.
    destruct (Z.leb_spec 400 (status_code resp));
      destruct (Z.ltb_spec (status_code resp) 600); try reflexivity.
    exfalso. apply Hn. lia.
Qed.

(** X9: when the body of [_get] calls [_get] again.  A run whose request
    is answered ends in the call of [_get] exactly when the response is
    retryable (status 500, 503 or 504, or the quota status in the body of
    a response whose status is 200 or of no error class) and the retry
    budget is not exceeded; the call passes the time of the first request
    and [retry_counter + 1]. *)
Theorem attempt_recurses_iff (w : World) (url : string) (frt : option Z)
    (rc : Z) (s : State) (resp : Response) (t c : Z) :
  answered w s url resp ->
  (snd (attempt w url frt rc s) = Ok (Recurse t c)
   <-> retryable resp = true
       /\ exceeded_timeout w s frt = false
       /\ t = first_time w s frt
       /\ c = rc + 1).
Proof.
  intros (req & Hreq & Hget).
  rewrite (attempt_answered w s url frt rc req resp Hreq Hget). cbn [snd].
  split.
  - intros H. pose proof (retryable_recurse _ _ _ _ _ _ H) as Hr.
    apply classify_recurse_iff in H. destruct H as (-> & -> & -> & _). auto.
  - intros (Hr & -> & -> & ->). now apply classify_retryable.
Qed.

Lemma attempt_recurses_iff_witness :
  snd (attempt (steady_world quota_response) "/maps/api/geocode/json" None 0
         (fresh key_context []))
  = Ok (Recurse 0 1)
  <-> retryable quota_response = true
      /\ exceeded_timeout (steady_world quota_response) (fresh key_context []) None
         = false
      /\ 0 = first_time (steady_world quota_response) (fresh key_context []) None
      /\ 1 = 0 + 1.
Proof.
  apply (attempt_recurses_iff (steady_world quota_response)
           "/maps/api/geocode/json" None 0 (fresh key_context []) quota_response 0 1).
  apply steady_world_answers. eexists. reflexivity.
Defined.

(** The run of the body that follows [k] retries, when its request is
    answered. *)
Lemma _get_last (w : World) (fuel : nat) (url : string) (req : Request)
    (k : nat) (frt : option Z) (rc : Z) (s : State) (resp : Response) :
  request_of s url = Some req ->
  (forall i, (i < k)%nat ->
     exists r,
       requests_get w (List.length (sent s) + i) req = Ok r
       /\ retryable r = true
       /\ within_budget w s frt i = true) ->
  requests_get w (List.length (sent s) + k) req = Ok resp ->
  _get w (k + S fuel) url frt rc s
  = let s' :=
      after_response w (after_retries w url req k frt rc s) url
        (match k with O => frt | S _ => Some (first_time w s frt) end)
        (rc + Z.of_nat k) req in
    match classify resp (negb (within_budget w s frt k))
            (first_time w s frt) (rc + Z.of_nat k) with
    | Ok (Return body) => (s', Some (Ok body))
    | Ok (Recurse t c) => _get w fuel url (Some t) c s'
    | Raise e => (s', Some (Raise e))
    end.
Proof.
  intros Hreq H Hget.
  rewrite (_get_chain w (S fuel) url req k frt rc s Hreq H).
  destruct (after_retries_state w url req k frt rc s Hreq) as (_ & Hr & Hs & Hw).
  cbn [_get].
  assert (Hget' : requests_get w
                    (List.length (sent (after_retries w url req k frt rc s))) req
                  = Ok resp).
  { rewrite Hs, length_app, repeat_length. now rewrite Nat.add_comm. }
  rewrite (attempt_answered w _ url _ _ req resp Hr Hget').
  rewrite exceeded_within_budget, Hw, Nat.add_0_r.
  replace (first_time w (after_retries w url req k frt rc s)
             (match k with O => frt | S _ => Some (first_time w s frt) end))
    with (first_time w s frt) by (now destruct k).
  reflexivity.
Qed.

Lemma after_response_slept (w : World) (s : State) (url : string)
    (frt : option Z) (rc : Z) (req : Request) :
  List.length (slept (after_response w s url frt rc req))
  = (List.length (slept s) + if (0 <? rc)%Z then 1 else 0)%nat.
Proof.
  unfold after_response, after_backoff. cbn [slept].
  destruct (0 <? rc); cbn [List.length]; lia.
Qed.

Lemma after_retries_slept (w : World) (url : string) (req : Request) (k : nat) :
  forall (frt : option Z) (rc : Z) (s : State),
    1 <= rc ->
    List.length (slept (after_retries w url req k frt rc s))
    = (List.length (slept s) + k)%nat.
Proof.
  induction k as [|k IH]; intros frt rc s Hrc; cbn [after_retries].
  - now rewrite Nat.add_0_r.
  - rewrite IH by lia. rewrite after_response_slept.
    assert (E : (0 <? rc) = true) by (apply Z.ltb_lt; lia).
    rewrite E. lia.
Qed.

(** A call from scratch that runs the body [k + 1] times has slept [k]
    times. *)
Lemma fresh_call_slept (w : World) (url : string) (req : Request) (k : nat)
    (s : State) :
  List.length
    (slept (after_response w (after_retries w url req k None 0 s) url
              (match k with O => None | S _ => Some (first_time w s None) end)
              (0 + Z.of_nat k) req))
  = (List.length (slept s) + k)%nat.
Proof.
  rewrite after_response_slept. destruct k as [|k].
  - cbn. lia.
  - assert (E : (0 <? 0 + Z.of_nat (S k)) = true) by (apply Z.ltb_lt; lia).
    rewrite E. cbn [after_retries]. rewrite after_retries_slept by lia.
    rewrite after_response_slept. cbn [Z.ltb Z.compare]. lia.
Qed.

(** X10: a server that answers 500, 503 or 504 every time.  If the first
    [k] responses of a call from scratch come within the retry budget and
    the next one after it, [_get] raises the HTTP error of that last
    response, having sent the same request [k + 1] times and slept [k]
    times. *)
Theorem _get_server_errors_exhaust_budget (w : World) (fuel : nat)
    (url : string) (req : Request) (k : nat) (s : State) :
  request_of s url = Some req ->
  (forall i, (i <= k)%nat ->
     exists resp,
       requests_get w (List.length (sent s) + i) req = Ok resp
       /\ In (status_code resp) [500; 503; 504]) ->
  (forall i, (i < k)%nat -> within_budget w s None i = true) ->
  within_budget w s None k = false ->
  exists resp,
    requests_get w (List.length (sent s) + k) req = Ok resp
    /\ snd (_get w (k + S fuel) url None 0 s)
       = Some (Raise (HTTPError (status_code resp)))
    /\ sent (fst (_get w (k + S fuel) url None 0 s)) = (repeat req (S k) ++ sent s)%list
    /\ List.length (slept (fst (_get w (k + S fuel) url None 0 s)))
       = (List.length (slept s) + k)%nat.
Proof.
  intros Hreq Hresp Hin Hout.
  destruct (Hresp k (Nat.le_refl k)) as (resp & Hget & Hsc).
  exists resp. split; [exact Hget|].
  assert (H : forall i, (i < k)%nat ->
            exists r, requests_get w (List.length (sent s) + i) req = Ok r
                      /\ retryable r = true /\ within_budget w s None i = true).
  { intros i Hi. destruct (Hresp i ltac:(lia)) as (r & Hg & Hs).
    exists r. split; [exact Hg|]. split; [|now apply Hin].
    unfold retryable. apply orb_true_intro. left.
    apply existsb_exists. exists (status_code r). split; [exact Hs|].
    apply Z.eqb_refl. }
  rewrite (_get_last w fuel url req k None 0 s resp Hreq H Hget).
  cbv zeta. rewrite Hout. cbn [negb].
  rewrite (classify_error_status resp true _ _
             ltac:(simpl in Hsc; lia) (or_intror eq_refl)).
  cbn [fst snd]. split; [reflexivity|]. split.
  - destruct (after_retries_state w url req k None 0 s Hreq) as (_ & _ & Hs & _).
    unfold after_response. cbn [sent]. now rewrite Hs.
  - apply fresh_call_slept.
Qed.

Lemma _get_server_errors_exhaust_budget_witness :
  exists resp,
    requests_get (steady_world unavailable_response) (0 + 2)
      (mkRequest
         "https://maps.googleapis.com/maps/api/geocode/json?key=AIzaSyExampleKey"
         _USER_AGENT (Single None) true)
    = Ok resp
    /\ snd (_get (steady_world unavailable_response) (2 + 1)
              "/maps/api/geocode/json" None 0 (fresh hasty_context []))
       = Some (Raise (HTTPError (status_code resp)))
    /\ sent (fst (_get (steady_world unavailable_response) (2 + 1)
                    "/maps/api/geocode/json" None 0 (fresh hasty_context [])))
       = (repeat
            (mkRequest
               "https://maps.googleapis.com/maps/api/geocode/json?key=AIzaSyExampleKey"
               _USER_AGENT (Single None) true) 3 ++ [])%list
    /\ List.length
         (slept (fst (_get (steady_world unavailable_response) (2 + 1)
                        "/maps/api/geocode/json" None 0 (fresh hasty_context []))))
       = (0 + 2)%nat.
Proof.
  apply (_get_server_errors_exhaust_budget (steady_world unavailable_response) 0
           "/maps/api/geocode/json"
           (mkRequest
              "https://maps.googleapis.com/maps/api/geocode/json?key=AIzaSyExampleKey"
              _USER_AGENT (Single None) true)
           2 (fresh hasty_context []) eq_refl).
  - intros i _. exists unavailable_response. split; [reflexivity|].
    cbn. auto.
  - intros i Hi. destruct i as [|[|i]]; [reflexivity | reflexivity | lia].
  - reflexivity.
Defined.

(** X11: every request of a call is the same request.  However deep the
    recursion goes, what [_get] has sent is some number of copies of the
    request of its first run: the URL signed once more to the same string
    on the host of the API, with the fixed User-Agent, the Context's
    timeout, and certificate verification on. *)
Theorem _get_sends_one_request (w : World) (url : string) (req : Request)
    (fuel : nat) :
  forall (frt : option Z) (rc : Z) (s : State),
    request_of s url = Some req ->
    (exists n, (n <= fuel)%nat
               /\ sent (fst (_get w fuel url frt rc s)) = (repeat req n ++ sent s)%list)
    /\ req_verify req = true
    /\ req_user_agent req = _USER_AGENT
    /\ req_timeout req = timeout (ctx s)
    /\ exists p, snd (_auth_url (ctx s) url (params s)) = Ok (Some p)
                 /\ req_url req = "https://maps.googleapis.com" ++ p.
Proof.
  induction fuel as [|fuel IH]; intros frt rc s Hreq.
  - split; [exists 0%nat; split; [lia | reflexivity]|].
    unfold request_of in Hreq.
    destruct (snd (_auth_url (ctx s) url (params s))) as [[p|]|]; try discriminate.
    injection Hreq as <-. cbn [req_verify req_user_agent req_timeout req_url].
    repeat split. eauto.
  - split; [|apply (IH frt rc s Hreq)].
    pose proof (attempt_sent w url frt rc s) as Hs. rewrite Hreq in Hs.
    pose proof (request_of_after_attempt w url frt rc s) as Hr. rewrite Hreq in Hr.
    cbn [_get]. destruct (attempt w url frt rc s) as [s1 [[b|t c]|e]];
      cbn [fst snd] in *.
    + exists 1%nat. split; [lia | exact Hs].
    + destruct (IH (Some t) c s1 Hr) as ((n & Hn & Hsent) & _).
      exists (S n). split; [lia|]. rewrite Hsent, Hs. apply repeat_snoc.
    + exists 1%nat. split; [lia | exact Hs].
Qed.

Lemma _get_sends_one_request_witness :
  exists n, (n <= 7)%nat
            /\ sent (fst (_get (steady_world quota_response) 7
                            "/maps/api/geocode/json" None 0 (fresh hasty_context [])))
               = (repeat
                    (mkRequest
                       "https://maps.googleapis.com/maps/api/geocode/json?key=AIzaSyExampleKey"
                       _USER_AGENT (Single None) true) n ++ [])%list.
Proof.
  apply (proj1 (_get_sends_one_request (steady_world quota_response)
                  "/maps/api/geocode/json"
                  (mkRequest
                     "https://maps.googleapis.com/maps/api/geocode/json?key=AIzaSyExampleKey"
                     _USER_AGENT (Single None) true)
                  7 None 0 (fresh hasty_context []) eq_refl)).
Defined.

(** X12: a call writes its credential entry once.  After [_get], however
    many times it has called itself, the caller's dict is as a single call
    of [_auth_url] leaves it, and the Context is as before. *)
Theorem _get_leaves_one_entry (w : World) (url : string) (fuel : nat) :
  forall (frt : option Z) (rc : Z) (s : State),
    ctx (fst (_get w (S fuel) url frt rc s)) = ctx s
    /\ params (fst (_get w (S fuel) url frt rc s))
       = snd (fst (_auth_url (ctx s) url (params s))).
Proof.
  induction fuel as [|fuel IH]; intros frt rc s;
    destruct (attempt_effects w s url frt rc) as (_ & _ & Hc & Hp);
    cbn [_get] in *; destruct (attempt w url frt rc s) as [s1 [[b|t c]|e]];
    cbn [fst snd] in *; auto.
  destruct (IH (Some t) c s1) as (Hc' & Hp').
  cbn [_get] in Hc', Hp'. rewrite Hc', Hp', Hc, Hp.
  split; [reflexivity|]. now rewrite _auth_url_again.
Qed.

(** A run that ends in the call of [_get] had its request answered, within
    the budget. *)
Lemma attempt_recurse_inv (w : World) (url : string) (frt : option Z) (rc : Z)
    (s s1 : State) (t c : Z) :
  attempt w url frt rc s = (s1, Ok (Recurse t c)) ->
  exists req,
    request_of s url = Some req
    /\ s1 = after_response w s url frt rc req
    /\ t = first_time w s frt
    /\ c = rc + 1
    /\ exceeded_timeout w s frt = false.
Proof.
  intros H.
  destruct (request_of s url) as [req|] eqn:Hreq.
  - destruct (requests_get w (List.length (sent s)) req) as [resp|e] eqn:Hget.
    + rewrite (attempt_answered w s url frt rc req resp Hreq Hget) in H.
      injection H as <- H. apply classify_recurse_iff in H.
      destruct H as (-> & -> & Hex & _). exists req. auto.
    + destruct (attempt_unanswered w url frt rc s req e Hreq Hget) as (_ & Hr).
      rewrite H in Hr. discriminate Hr.
  - destruct (attempt_unsigned w url frt rc s Hreq) as (_ & Hr).
    rewrite H in Hr. cbn [snd] in Hr.
    destruct (snd (_auth_url (ctx s) url (params s))) as [[p|]|e]; discriminate Hr.
Qed.

(** X13: the call ends when time advances.  If every reading of the clock
    is at least [d] later than the one before and the retry budget is below
    the time elapsed after the first response plus [n] times [d], then
    [_get] ends within [n + 1] runs of its body, whatever the server
    answers, and sends at most [n + 1] requests. *)
Theorem _get_terminates (w : World) (url : string) (d : Z) (n : nat) :
  (forall m, datetime_now w m + d <= datetime_now w (S m)) ->
  forall (fuel : nat) (frt : option Z) (rc : Z) (s : State),
    retry_timeout (ctx s)
    < datetime_now w (finish_index s frt 0) - first_time w s frt + Z.of_nat n * d ->
    exists r,
      snd (_get w (S n + fuel) url frt rc s) = Some r
      /\ (List.length (sent (fst (_get w (S n + fuel) url frt rc s)))
          <= List.length (sent s) + S n)%nat.
Proof.
  intros Hclock. induction n as [|n IH]; intros fuel frt rc s Hb;
    pose proof (attempt_sent w url frt rc s) as Hs;
    cbn [Nat.add _get];
    destruct (attempt w url frt rc s) as [s1 [[b|t c]|e]] eqn:Ea;
    cbn [fst snd] in *;
    try (eexists; split; [reflexivity|];
         rewrite Hs; destruct (request_of s url); cbn [List.length]; lia).
  - destruct (attempt_recurse_inv w url frt rc s s1 t c Ea)
      as (req & _ & _ & _ & _ & Hex).
    unfold exceeded_timeout in Hex. apply Z.ltb_ge in Hex.
    unfold finish_index in Hb. rewrite Nat.add_0_r in Hb.
    unfold finish_time in Hex. destruct frt; cbn [Z.of_nat] in Hb; lia.
  - destruct (attempt_recurse_inv w url frt rc s s1 t c Ea)
      as (req & Hreq & -> & -> & -> & _).
    rewrite Hreq in Hs.
    destruct (IH fuel (Some (first_time w s frt)) (rc + 1)
                (after_response w s url frt rc req)) as (r & Hr & Hn).
    + unfold finish_index, after_response, after_backoff in *.
      cbn [ctx clock_reads first_time] in *. rewrite Nat.add_0_r in *.
      pose proof (Hclock (match frt with
                          | Some _ => clock_reads s
                          | None => S (clock_reads s)
                          end)) as Hc.
      rewrite Nat2Z.inj_succ in Hb. nia.
    + exists r. split; [exact Hr|].
      refine (Nat.le_trans _ _ _ Hn _). rewrite Hs. cbn [List.length]. lia.
Qed.

Lemma _get_terminates_witness :
  exists r,
    snd (_get (steady_world unavailable_response) (3 + 0)
           "/maps/api/geocode/json" None 0 (fresh hasty_context []))
    = Some r
    /\ (List.length
          (sent (fst (_get (steady_world unavailable_response) (3 + 0)
                        "/maps/api/geocode/json" None 0 (fresh hasty_context []))))
        <= 0 + 3)%nat.
Proof.
  apply (_get_terminates (steady_world unavailable_response)
           "/maps/api/geocode/json" 1000000 2).
  - intros m. cbn [steady_world datetime_now]. lia.
  - cbn. lia.
Defined.
